(** * WordLlama inference engine: a shallow embedding of [wordllama/inference.py]

    The development follows the Python source function by function.

    - [Py]   : the few Python values, exceptions and builtins the engine uses
               ([isinstance], [range], slices, [zip], [list.sort]).
    - [F32]  : NumPy's [float32], as IEEE-754 binary32 from the standard
               library's executable specification [SpecFloat].
    - [Np]   : the NumPy array operations the engine calls, with their shape
               rules (broadcasting, slice assignment, [squeeze], [a @ b.T]).
    - [Algorithms] : the compiled helpers imported from [wordllama.algorithms],
               whose source is not part of [inference.py].
    - [WordLlamaInference] : the class itself, [self] being an explicit record.

    Conventions.  An exception is a value of [result]; a method that can raise
    returns [result A].  [embed] is modelled at [pool_embeddings=True] and
    [return_np=True], the defaults that every caller in the class relies on;
    [batch_size] is a natural number.  A Python [float] threshold is a float
    that is compared with the scores as it stands. *)

From Stdlib Require Import ZArith Bool String List Lia Permutation Sorted.
From Stdlib Require Import SpecFloat.
Import ListNotations.

Set Implicit Arguments.
Open Scope Z_scope.

(* ================================================================== *)
(** * Python values, exceptions, builtins *)
(* ================================================================== *)

Module Py.

(** The exception classes that the modelled code can raise. *)
Inductive exn : Set :=
| TypeError
| ValueError
| IndexError
| AxisError
| OverflowError
| AssertionError.

Inductive result (A : Type) : Type :=
| Ok (a : A)
| Raise (e : exn).

Arguments Ok {A} a.
Arguments Raise {A} e.

Definition bind {A B} (r : result A) (k : A -> result B) : result B :=
  match r with
  | Ok a => k a
  | Raise e => Raise e
  end.

Definition is_ok {A} (r : result A) : bool :=
  match r with Ok _ => true | Raise _ => false end.

(** [assert c, ...] *)
Definition assert (c : bool) : result unit :=
  if c then Ok tt else Raise AssertionError.

(** Dynamically typed arguments: what a caller may pass where the signature
    says [Union[str, List[str]]]. *)
#[local] Set Warnings "-register-all".
Inductive obj : Type :=
| PyNone
| PyInt (z : Z)
| PyStr (s : string)
| PyList (l : list obj).

(** [isinstance(x, str)] *)
Definition is_str (x : obj) : bool :=
  match x with PyStr _ => true | _ => false end.

(** [range(start, stop, step)] for non-negative arguments; a zero step is a
    [ValueError]. *)
Definition range (start stop step : nat) : result (list nat) :=
  match step with
  | O => Raise ValueError
  | S _ =>
      Ok (map (fun k => (start + k * step)%nat)
              (seq 0 ((stop - start + step - 1) / step)%nat))
  end.

(** [iter(x)]: a list yields its elements, a string its characters; the
    other values are not iterable. *)
Definition iter (x : obj) : result (list obj) :=
  match x with
  | PyList l => Ok l
  | PyStr s => Ok (map (fun c => PyStr (String c EmptyString))
                       (list_ascii_of_string s))
  | _ => Raise TypeError
  end.

Fixpoint foldM {A S} (f : S -> A -> result S) (l : list A) (s : S)
  : result S :=
  match l with
  | [] => Ok s
  | x :: l' =>
      match f s x with
      | Ok s' => foldM f l' s'
      | Raise e => Raise e
      end
  end.

(** [l[i:j]] for [0 <= i <= j]. *)
Definition slice {A} (l : list A) (i j : nat) : list A :=
  firstn (j - i) (skipn i l).

(** [isinstance(x, list)] *)
Definition is_list (x : obj) : bool :=
  match x with PyList _ => true | _ => false end.

(** [len(x)]: defined on lists and strings. *)
Definition len (x : obj) : result nat :=
  match x with
  | PyList l => Ok (length l)
  | PyStr s => Ok (String.length s)
  | _ => Raise TypeError
  end.

(** [x[0]] of a list. *)
Definition first (x : obj) : result obj :=
  match x with
  | PyList (y :: _) => Ok y
  | PyList [] => Raise IndexError
  | PyStr (String c _) => Ok (PyStr (String c EmptyString))
  | PyStr EmptyString => Raise IndexError
  | _ => Raise TypeError
  end.

(** [l[:k]]: a negative [k] counts from the end. *)
Definition slice_to {A} (l : list A) (k : Z) : list A :=
  if 0 <=? k then firstn (Z.to_nat k) l
  else firstn (length l - Z.to_nat (- k)) l.

(** ** [list.sort(key=..., reverse=...)]

    CPython's sort compares keys with [<] only.  It takes the run that opens
    the list, the longest prefix in which no element is smaller than its
    predecessor or else the longest strictly descending prefix, reversed in
    place ([count_run]), and inserts the remaining elements one by one at the
    place a bisection of the run finds ([binarysort]).  This is the whole
    algorithm for a list of fewer than 64 elements; a longer list is cut into
    such runs that are merged, which is not followed here: on keys that [<]
    orders, every stable sort returns the same list.  With [reverse=True] the
    list is reversed, sorted forward and reversed again, which keeps equal
    keys in their original order. *)
Section Sort.
Variables (A K : Type) (lt : K -> K -> bool) (key : A -> K).

(** The number of elements after [prev] that are not smaller than their
    predecessor. *)
Fixpoint ascending_run (prev : A) (l : list A) : nat :=
  match l with
  | [] => 0%nat
  | x :: l' => if lt (key x) (key prev) then 0%nat else S (ascending_run x l')
  end.

(** The number of elements after [prev] that are smaller than their
    predecessor. *)
Fixpoint descending_run (prev : A) (l : list A) : nat :=
  match l with
  | [] => 0%nat
  | x :: l' => if lt (key x) (key prev) then S (descending_run x l') else 0%nat
  end.

(** The length of the run that opens the list, and whether it descends. *)
Definition count_run (l : list A) : nat * bool :=
  match l with
  | [] => (0%nat, false)
  | [x] => (1%nat, false)
  | x :: y :: l' =>
      if lt (key y) (key x) then ((2 + descending_run y l')%nat, true)
      else ((2 + ascending_run y l')%nat, false)
  end.

(** The bisection of [binarysort]: [l] and [r] close in on the place of
    [pivot] in [run], the pivot going to the right of the elements it is not
    smaller than. *)
Fixpoint bisect (fuel : nat) (pivot : A) (run : list A) (l r : nat) : nat :=
  match fuel with
  | O => l
  | S fuel' =>
      if (l <? r)%nat then
        let p := (l + (r - l) / 2)%nat in
        match nth_error run p with
        | Some y => if lt (key pivot) (key y) then bisect fuel' pivot run l p
                    else bisect fuel' pivot run (S p) r
        | None => l
        end
      else l
  end.

Definition insort (x : A) (run : list A) : list A :=
  let pos := bisect (length run) x run 0%nat (length run) in
  firstn pos run ++ x :: skipn pos run.

Definition binarysort (run rest : list A) : list A :=
  fold_left (fun run x => insort x run) rest run.

Definition sort_forward (l : list A) : list A :=
  let '(n, descending) := count_run l in
  let run := firstn n l in
  binarysort (if descending then rev run else run) (skipn n l).

Definition sort (reverse : bool) (l : list A) : list A :=
  if reverse then rev (sort_forward (rev l)) else sort_forward l.
End Sort.

End Py.

Import Py.

Notation "x <- e ;; k" := (Py.bind e (fun x => k))
  (at level 61, e at next level, right associativity).
Notation "e ;;; k" := (Py.bind e (fun _ => k))
  (at level 61, right associativity).

(* ================================================================== *)
(** * [np.float32] *)
(* ================================================================== *)

Module F32.

Definition prec : Z := 24.
Definition emax : Z := 128.

Abbreviation t := spec_float.

(** Conversion of a Python or NumPy integer, rounding to nearest even. *)
Definition of_Z (z : Z) : t := binary_normalize prec emax z 0 false.

Definition zero : t := S754_zero false.
Definition one : t := Eval vm_compute in of_Z 1.

Definition add : t -> t -> t := SFadd prec emax.
Definition sub : t -> t -> t := SFsub prec emax.
Definition mul : t -> t -> t := SFmul prec emax.
Definition div : t -> t -> t := SFdiv prec emax.
Definition sqrt : t -> t := SFsqrt prec emax.

Definition eqb : t -> t -> bool := SFeqb.
Definition ltb : t -> t -> bool := SFltb.
Definition leb : t -> t -> bool := SFleb.

Definition is_nan (x : t) : bool :=
  match x with S754_nan => true | _ => false end.

Definition is_inf (x : t) : bool :=
  match x with S754_infinity _ => true | _ => false end.

Definition is_zero (x : t) : bool :=
  match x with S754_zero _ => true | _ => false end.

(** Neither NaN nor an infinity. *)
Definition is_finite (x : t) : bool := negb (is_nan x || is_inf x).

(** [np.maximum]: [(a >= b || isnan(a)) ? a : b]. *)
Definition maximum (a b : t) : t :=
  if leb b a || is_nan a then a else b.

(** [np.sum] and [np.add.reduce]: the elements are added, in index order, to
    the identity [0.0] of [np.add], so that the sum of no element is [0.0]
    and a sum of negative zeros is [+0.0] (NumPy adds the elements of a long
    contiguous axis pairwise, which rounds differently there). *)
Definition sum (l : list t) : t := fold_left add l zero.

End F32.

Abbreviation f32 := F32.t.

(* ================================================================== *)
(** * NumPy arrays *)
(* ================================================================== *)

Module Np.

(** A 2-D array of shape [(length rows, ncols)]; every row has [ncols]
    elements.  The column count is kept apart so that an array without rows
    still has a shape. *)
Record array2 (T : Type) : Type := Array2 { ncols : nat; rows : list (list T) }.

Definition nrows {T} (a : array2 T) : nat := length (rows a).
Definition shape {T} (a : array2 T) : nat * nat := (nrows a, ncols a).

Definition wf {T} (a : array2 T) : Prop :=
  Forall (fun r => length r = ncols a) (rows a).

(** Arrays of the ranks that occur: 0-d (a squeezed 1x1 result), 1-d, 2-d. *)
Inductive ndarray (T : Type) : Type :=
| Arr0 (x : T)
| Arr1 (v : list T)
| Arr2 (a : array2 T).

Definition ndim {T} (a : ndarray T) : nat :=
  match a with Arr0 _ => 0 | Arr1 _ => 1 | Arr2 _ => 2 end.

(** [np.expand_dims(v, axis=0)] *)
Definition expand_dims {T} (v : list T) : array2 T :=
  {| ncols := length v; rows := [v] |}.

(** ** Broadcasting of one axis *)
Definition broadcast_dim (m n : nat) : option nat :=
  if (m =? n)%nat then Some m
  else if (m =? 1)%nat then Some n
  else if (n =? 1)%nat then Some m
  else None.

(** An axis of length one is repeated to the broadcast length. *)
Definition stretch {A} (k : nat) (l : list A) : list A :=
  match l with
  | [x] => repeat x k
  | _ => l
  end.

(** [np.empty((n, d), dtype)]: the cells hold whatever [junk] was there. *)
Definition empty {T} (junk : T) (n d : nat) : array2 T :=
  {| ncols := d; rows := repeat (repeat junk d) n |}.

(** [np.array(l)] for a non-empty list of lists: a ragged list is a
    [ValueError]. *)
Definition array {T} (l : list (list T)) : result (array2 T) :=
  let d := length (hd [] l) in
  if forallb (fun r => (length r =? d)%nat) l
  then Ok {| ncols := d; rows := l |}
  else Raise ValueError.

Definition int32_min : Z := - 2 ^ 31.
Definition int32_max : Z := 2 ^ 31 - 1.

Definition in_int32 (z : Z) : bool := (int32_min <=? z) && (z <=? int32_max).

(** [np.array(l, dtype=np.int32)]: a Python integer outside the int32 range
    is an [OverflowError]. *)
Definition array_int32 (l : list (list Z)) : result (array2 Z) :=
  if forallb (forallb in_int32) l then array l else Raise OverflowError.

(** [np.array(l, dtype=np.float32)] of Python integers *)
Definition array_float32 (l : list (list Z)) : result (array2 f32) :=
  array (map (map F32.of_Z) l).

(** [np.clip(x, lo, hi)] is [minimum(maximum(x, lo), hi)]. *)
Definition clip1 (lo hi x : Z) : Z := Z.min (Z.max x lo) hi.

Definition clip (a : array2 Z) (lo hi : Z) : array2 Z :=
  {| ncols := ncols a; rows := map (map (clip1 lo hi)) (rows a) |}.

(** [table[i]]: a negative index counts from the end, an index outside
    [-n, n) is an [IndexError]. *)
Definition index {T} (l : list T) (i : Z) : result T :=
  let n := Z.of_nat (length l) in
  let j := if i <? 0 then n + i else i in
  if (0 <=? j) && (j <? n) then
    match nth_error l (Z.to_nat j) with
    | Some x => Ok x
    | None => Raise IndexError
    end
  else Raise IndexError.

Fixpoint mapM {A B} (f : A -> result B) (l : list A) : result (list B) :=
  match l with
  | [] => Ok []
  | x :: l' => y <- f x ;; ys <- mapM f l' ;; Ok (y :: ys)
  end.

(** [table[ids]] with a 2-d integer array: shape [(n, seq, dim)], here an
    [(n, seq)] array of rows. *)
Definition take {T} (table : array2 T) (ids : array2 Z)
  : result (array2 (list T)) :=
  rs <- mapM (mapM (index (rows table))) (rows ids) ;;
  Ok {| ncols := ncols ids; rows := rs |}.

(** Elementwise operation on two broadcast axes of equal or unit length;
    [None] when the lengths do not broadcast. *)
Definition zip_broadcast {A B C} (f : A -> B -> C) (m n : nat)
  (la : list A) (lb : list B) : option (list C) :=
  match broadcast_dim m n with
  | Some k => Some (map (fun p => f (fst p) (snd p))
                        (combine (if (m =? k)%nat then la else stretch k la)
                                 (if (n =? k)%nat then lb else stretch k lb)))
  | None => None
  end.

(** [(a == b).all()] on 2-d arrays: the comparison broadcasts both axes and
    raises when the shapes do not broadcast. *)
Definition all_equal (a b : array2 f32) : result bool :=
  match broadcast_dim (ncols a) (ncols b) with
  | None => Raise ValueError
  | Some _ =>
      match zip_broadcast
              (fun ra rb =>
                 match zip_broadcast F32.eqb (ncols a) (ncols b) ra rb with
                 | Some bs => forallb (fun x => x) bs
                 | None => false
                 end)
              (nrows a) (nrows b) (rows a) (rows b) with
      | Some bs => Ok (forallb (fun x => x) bs)
      | None => Raise ValueError
      end
  end.

(** [np.linalg.norm(x, axis=1, keepdims=True)]: [sqrt(add.reduce(x * x))]
    for each row. *)
Definition linalg_norm (a : array2 f32) : list f32 :=
  map (fun r => F32.sqrt (F32.sum (map (fun x => F32.mul x x) r))) (rows a).

(** [a / norms] with [norms] of shape [(n, 1)] *)
Definition div_rows (a : array2 f32) (norms : list f32) : array2 f32 :=
  {| ncols := ncols a;
     rows := map (fun p => map (fun x => F32.div x (snd p)) (fst p))
                 (combine (rows a) norms) |}.

(** One entry of a matrix product, accumulated from [0.0] in index order
    (the order in which the BLAS routine adds is its own). *)
Definition dot (u v : list f32) : f32 :=
  fold_left (fun acc p => F32.add acc (F32.mul (fst p) (snd p)))
            (combine u v) F32.zero.

(** [a @ b.T]: the inner dimensions must agree. *)
Definition matmul_T (a b : array2 f32) : result (array2 f32) :=
  if (ncols a =? ncols b)%nat
  then Ok {| ncols := nrows b;
             rows := map (fun ra => map (dot ra) (rows b)) (rows a) |}
  else Raise ValueError.

(** [dst[i : i + n] = src] where [n] is the row count of [src]: the slice is
    cut at the end of [dst], and [src] is broadcast to the slice (a single row
    or a single column is repeated); any other shape is a [ValueError]. *)
Definition assign_rows {T} (dst : array2 T) (i : nat) (src : array2 T)
  : result (array2 T) :=
  let lo := Nat.min i (nrows dst) in
  let hi := Nat.min (i + nrows src) (nrows dst) in
  let m := (hi - lo)%nat in
  if ((nrows src =? m) || (nrows src =? 1))%nat
     && ((ncols src =? ncols dst) || (ncols src =? 1))%nat
  then
    let src_rows := if (nrows src =? m)%nat then rows src
                    else stretch m (rows src) in
    let src_rows := if (ncols src =? ncols dst)%nat then src_rows
                    else map (stretch (ncols dst)) src_rows in
    Ok {| ncols := ncols dst;
          rows := firstn lo (rows dst) ++ src_rows ++ skipn hi (rows dst) |}
  else Raise ValueError.

(** [a.squeeze()]: every axis of length one is dropped. *)
Definition squeeze {T} (a : array2 T) : ndarray T :=
  match rows a, ncols a with
  | [[x]], 1%nat => Arr0 x
  | [r], _ => Arr1 r
  | rs, 1%nat => Arr1 (concat rs)
  | _, _ => Arr2 a
  end.

(** [a.item()]: the single element of an array of size one. *)
Definition item {T} (a : array2 T) : result T :=
  match rows a with
  | [[x]] => Ok x
  | _ => Raise ValueError
  end.

End Np.

Import Np.

(* ================================================================== *)
(** * [wordllama.algorithms] *)
(* ================================================================== *)

Module Algorithms.

(** Modelled from the spec: the population count inside the missing
    [hamming_distance], the number of set bits among the 64 bits of a word. *)
Definition popcount64 (w : Z) : Z :=
  Z.of_nat (length (filter (Z.testbit w) (map Z.of_nat (seq 0 64)))).

(** Modelled from the spec: the distance of one pair of codes inside the
    missing [hamming_distance], XOR and population count summed over the
    words. *)
Definition code_distance (u v : list Z) : Z :=
  fold_left Z.add
    (map (fun p => popcount64 (Z.lxor (fst p) (snd p))) (combine u v)) 0.

(** Modelled from the spec: [hamming_distance] is compiled code that is not
    in [inference.py].  The specification describes it as the Hamming
    distance (total differing bits) between every pair of packed codes via
    bitwise XOR and population count, summed across all words; the result has
    one row per code of [a] and one column per code of [b]. *)
Definition hamming_distance (a b : array2 Z) : array2 Z :=
  {| ncols := nrows b;
     rows := map (fun u => map (code_distance u) (rows b)) (rows a) |}.

(** Modelled from the spec: the grouping inside the missing
    [binarize_and_packbits], [n] groups of 64 consecutive components. *)
Fixpoint chunks64 {A} (n : nat) (l : list A) : list (list A) :=
  match n with
  | O => []
  | S n' => firstn 64 l :: chunks64 n' (skipn 64 l)
  end.

(** Modelled from the spec: the packing inside the missing
    [binarize_and_packbits]; the specification leaves the bit order open, here
    bit [k] of the word is the [k]-th flag of the group. *)
Definition pack64 (bits : list bool) : Z :=
  fold_right (fun b acc => Z.b2z b + 2 * acc) 0 bits.

(** Modelled from the spec: [binarize_and_packbits] is compiled code that is
    not in [inference.py].  The specification describes it as thresholding
    each dense component at zero and packing 64 consecutive bits into one
    unsigned 64-bit word per group, producing [dim/64] words per vector. *)
Definition binarize_and_packbits (x : array2 f32) : array2 Z :=
  let words := (ncols x / 64)%nat in
  {| ncols := words;
     rows := map (fun r => map pack64
                             (chunks64 words (map (F32.ltb F32.zero) r)))
                 (rows x) |}.

(** The scan that the specification describes for the missing
    [process_batches_cy], on the rows of the embedding array. *)
Section ProcessBatches.
Variables (T : Type)
          (vector_similarity :
             ndarray T -> ndarray T -> result (array2 f32))
          (threshold : f32).

(** Modelled from the spec: the test inside the missing
    [process_batches_cy], whether the score of a pair exceeds [threshold]. *)
Definition exceeds (u v : list T) : result bool :=
  s <- vector_similarity (Arr1 u) (Arr1 v) ;;
  match rows s with
  | [[x]] => Ok (F32.ltb threshold x)
  | _ => Raise ValueError
  end.

(** Modelled from the spec: the comparison, inside the missing
    [process_batches_cy], of a surviving document with the subsequent ones. *)
Fixpoint mark_after (u : list T) (j : nat) (rest : list (list T))
  (dups : list nat) : result (list nat) :=
  match rest with
  | [] => Ok dups
  | v :: rest' =>
      d <- exceeds u v ;;
      mark_after u (S j) rest' (if d then j :: dups else dups)
  end.

(** Modelled from the spec: the scan in order inside the missing
    [process_batches_cy], skipping the documents already marked. *)
Fixpoint scan (i : nat) (rs : list (list T)) (dups : list nat)
  : result (list nat) :=
  match rs with
  | [] => Ok dups
  | u :: rest =>
      if existsb (Nat.eqb i) dups then scan (S i) rest dups
      else dups' <- mark_after u (S i) rest dups ;; scan (S i) rest dups'
  end.
End ProcessBatches.

(** Modelled from the spec: [process_batches_cy] is compiled code that is
    not in [inference.py].  The specification gives its intent: scan the
    corpus in order; for each document not yet marked duplicate, compare it
    against the subsequent documents with the similarity engine; a document
    whose score against an earlier surviving document exceeds [threshold] is
    marked.  The batching is left open there as a performance detail, so
    [batch_size] is not used. *)
Definition process_batches_cy (T : Type) (doc_embeddings : array2 T)
  (threshold : f32) (batch_size : nat)
  (vector_similarity : ndarray T -> ndarray T -> result (array2 f32))
  : result (list nat) :=
  scan vector_similarity threshold 0 (rows doc_embeddings) [].

End Algorithms.

Import Algorithms.

(* ================================================================== *)
(** * [class WordLlamaInference] *)
(* ================================================================== *)

(** What the tokenizer returns for one text: [enc.ids] and
    [enc.attention_mask]. *)
Record Encoding : Set := { ids : list Z; attention_mask : list Z }.

Module WordLlamaInference.

(** [self]: the mode flag, the embedding table (already [float32]) and the
    tokenizer's [encode_batch]. *)
Record t : Type := {
  binary : bool;
  embedding : array2 f32;
  encode_batch : list obj -> result (list Encoding)
}.

(** Element type of the arrays that [embed] returns: [np.uint64] in binary
    mode, [np.float32] otherwise. *)
Definition elt (b : bool) : Type := if b then Z else f32.

Definition junk (b : bool) : elt b :=
  match b with
  | true => 0
  | false => F32.zero
  end.

Definition tokenize (self : t) (texts : obj) : result (list Encoding) :=
  match texts with
  | PyStr _ => encode_batch self [texts]
  | PyList l => encode_batch self l
  | _ => Raise AssertionError
  end.

(** [np.sum(v, axis=1)] over the sequence axis of one text: component [d] of
    the result adds component [d] of every token vector. *)
Definition sum_axis1 (dim : nat) (toks : list (list f32)) : list f32 :=
  map (fun d => F32.sum (map (fun tok => nth d tok F32.zero) toks))
      (seq 0 dim).

Definition broadcast {A} (o : option A) : result A :=
  match o with
  | Some a => Ok a
  | None => Raise ValueError
  end.

(** [avg_pool(x, mask)] with [x] of shape [(n, seq, dim)] and [mask] of shape
    [(n, seq)]. *)
Definition avg_pool (dim : nat) (x : array2 (list f32)) (mask : array2 f32)
  : result (array2 f32) :=
  let mask_sum :=
    map (fun r => F32.maximum (F32.sum r) F32.one) (rows mask) in
  broadcast (broadcast_dim (ncols x) (ncols mask)) ;;;
  prod <- broadcast
            (zip_broadcast
               (fun xr mr =>
                  match zip_broadcast
                          (fun tok m => map (fun v => F32.mul v m) tok)
                          (ncols x) (ncols mask) xr mr with
                  | Some p => p
                  | None => []
                  end)
               (nrows x) (nrows mask) (rows x) (rows mask)) ;;
  let summed := map (sum_axis1 dim) prod in
  pooled <- broadcast
              (zip_broadcast
                 (fun r s => map (fun v => F32.div v s) r)
                 (length summed) (length mask_sum) summed mask_sum) ;;
  Ok {| ncols := dim; rows := pooled |}.

Definition normalize_embeddings (embeddings : array2 f32) : array2 f32 :=
  let norms := linalg_norm embeddings in
  div_rows embeddings norms.

(** The last step of a batch: packed words in binary mode. *)
Definition finalize (b : bool) : array2 f32 -> array2 (elt b) :=
  match b with
  | true => binarize_and_packbits
  | false => fun x => x
  end.

(** The body of the loop of [embed] up to the store: from a chunk of texts to
    the array that is written into the output. *)
Definition embed_batch (self : t) (chunk : list obj) (norm : bool)
  : result (array2 (elt (binary self))) :=
  encoded_texts <- tokenize self (PyList chunk) ;;
  match encoded_texts with
  | [] =>
      (* both arrays are 1-d and empty; [mask.sum(axis=1)] has no axis 1 *)
      Raise AxisError
  | _ :: _ =>
      input_ids <- array_int32 (map ids encoded_texts) ;;
      attention_mask <- array_float32 (map attention_mask encoded_texts) ;;
      let input_ids :=
        clip input_ids 0 (Z.of_nat (nrows (embedding self)) - 1) in
      batch_embeddings <- take (embedding self) input_ids ;;
      batch_embeddings <-
        avg_pool (ncols (embedding self)) batch_embeddings attention_mask ;;
      let batch_embeddings :=
        if norm
        then div_rows batch_embeddings (linalg_norm batch_embeddings)
        else batch_embeddings in
      Ok (finalize (binary self) batch_embeddings)
  end.

(** The argument checks that open [embed]: a string becomes a one-element
    list, anything but a list is refused, and [texts[0]] of a non-empty list
    must be a string. *)
Definition check_texts (texts : obj) : result (list obj) :=
  texts <- match texts with
           | PyStr _ => Ok [texts]
           | PyList l => Ok l
           | _ => Raise TypeError
           end ;;
  match texts with
  | x :: _ => if is_str x then Ok texts else Raise TypeError
  | [] => Ok texts
  end.

Definition embed (self : t) (texts : obj) (norm : bool) (batch_size : nat)
  : result (array2 (elt (binary self))) :=
  texts <- check_texts texts ;;
  let num_texts := length texts in
  let embedding_dim := ncols (embedding self) in
  let pooled_embeddings :=
    Np.empty (junk (binary self)) num_texts embedding_dim in
  starts <- Py.range 0 num_texts batch_size ;;
  foldM (fun pooled_embeddings i =>
           let chunk := Py.slice texts i (i + batch_size) in
           batch_embeddings <- embed_batch self chunk norm ;;
           assign_rows pooled_embeddings i batch_embeddings)
        starts pooled_embeddings.

(** [dist] is cast to [float32]; the Python scalars [1.0], [2.0] and
    [max_dist] take the type of the array they are combined with. *)
Definition hamming_similarity (a b : array2 Z) : array2 f32 :=
  let max_dist := Z.of_nat (ncols a) * 64 in
  let dist := hamming_distance a b in
  {| ncols := ncols dist;
     rows := map (map (fun d =>
                         F32.sub (F32.of_Z 1)
                                 (F32.mul (F32.of_Z 2)
                                          (F32.div (F32.of_Z d)
                                                   (F32.of_Z max_dist)))))
                 (rows dist) |}.

(** The branch of [cosine_similarity] that normalizes both operands. *)
Definition cosine_general (a b : array2 f32) : result (array2 f32) :=
  let a := normalize_embeddings a in
  let b := normalize_embeddings b in
  matmul_T a b.

(** The branch that normalizes [a] and reuses it for [b]. *)
Definition cosine_shared (a : array2 f32) : result (array2 f32) :=
  let a := normalize_embeddings a in
  let b := a in
  matmul_T a b.

Definition cosine_similarity (a b : array2 f32) : result (array2 f32) :=
  same <- all_equal a b ;;
  if same then cosine_shared a else cosine_general a b.

Definition vector_similarity (self : t) (a b : ndarray (elt (binary self)))
  : result (array2 f32) :=
  let a := match a with Arr1 v => Arr2 (expand_dims v) | _ => a end in
  let b := match b with Arr1 v => Arr2 (expand_dims v) | _ => b end in
  a <- match a with Arr2 a => Ok a | _ => Raise AssertionError end ;;
  b <- match b with Arr2 b => Ok b | _ => Raise AssertionError end ;;
  (match binary self as m
         return array2 (elt m) -> array2 (elt m) -> result (array2 f32) with
   | true => fun a b => Ok (hamming_similarity a b)
   | false => fun a b => cosine_similarity a b
   end) a b.

(** [query_embedding[0]] *)
Definition row0 {T} (a : array2 T) : result (list T) :=
  match rows a with
  | r :: _ => Ok r
  | [] => Raise IndexError
  end.

Definition rank (self : t) (query docs : obj) : result (list (obj * f32)) :=
  assert (is_str query) ;;;
  query_embedding <- embed self query false 32 ;;
  doc_embeddings <- embed self docs false 32 ;;
  q0 <- row0 query_embedding ;;
  scores <- vector_similarity self (Arr1 q0) (Arr2 doc_embeddings) ;;
  let scores := squeeze scores in
  docs <- Py.iter docs ;;
  match scores with
  | Arr0 _ => Raise TypeError          (* [zip(docs, 0.5)] *)
  | Arr1 scores =>
      let similarities := combine docs scores in
      Ok (Py.sort F32.ltb snd true similarities)
  | Arr2 _ => Raise TypeError          (* not reached, [vector_similarity_row] *)
  end.

Definition filter (self : t) (query candidates : obj) (threshold : f32)
  : result (list obj) :=
  query_embedding <- embed self query false 32 ;;
  candidate_embeddings <- embed self candidates false 32 ;;
  q0 <- row0 query_embedding ;;
  scores <- vector_similarity self (Arr1 q0) (Arr2 candidate_embeddings) ;;
  let similarity_scores := squeeze scores in
  candidates <- Py.iter candidates ;;
  match similarity_scores with
  | Arr0 _ => Raise TypeError          (* iteration over a 0-d array *)
  | Arr1 scores =>
      Ok (map fst (List.filter (fun p => F32.ltb threshold (snd p))
                               (combine candidates scores)))
  | Arr2 _ => Raise TypeError          (* not reached, [vector_similarity_row] *)
  end.

(** [enumerate(docs)] *)
Definition enumerate {A} (l : list A) : list (nat * A) :=
  combine (seq 0 (length l)) l.

Section Deduplicate.
(** The imported [process_batches_cy]; it returns the set of duplicate
    indices. *)
Variable process_batches_cy :
  forall T : Type, array2 T -> f32 -> nat ->
    (ndarray T -> ndarray T -> result (array2 f32)) -> result (list nat).

Definition deduplicate (self : t) (docs : obj) (threshold : f32)
  (batch_size : option nat) : result (list obj) :=
  doc_embeddings <- embed self docs (negb (binary self)) 32 ;;
  let batch_size :=
    match batch_size with
    | None => if binary self then 500%nat else 5000%nat
    | Some n => n
    end in
  duplicate_indices <-
    process_batches_cy doc_embeddings threshold batch_size
                       (vector_similarity self) ;;
  docs <- Py.iter docs ;;
  let unique_docs :=
    map snd
        (List.filter
           (fun p => negb (existsb (Nat.eqb (fst p)) duplicate_indices))
           (enumerate docs)) in
  Ok unique_docs.
End Deduplicate.

Definition similarity (self : t) (text1 text2 : obj) : result f32 :=
  embedding1 <- embed self text1 false 32 ;;
  embedding2 <- embed self text2 false 32 ;;
  e1 <- row0 embedding1 ;;
  e2 <- row0 embedding2 ;;
  s <- vector_similarity self (Arr1 e1) (Arr1 e2) ;;
  item s.

Definition topk (self : t) (query candidates : obj) (k : Z)
  : result (list obj) :=
  n <- Py.len candidates ;;
  assert (k <? Z.of_nat n) ;;;
  ranked_docs <- rank self query candidates ;;
  Ok (map fst (Py.slice_to ranked_docs k)).

Section Cluster.
(** The imported [kmeans_clustering] with its keyword arguments
    ([max_iterations], [tolerance], [n_init], [min_iterations],
    [random_state]) as one value; it returns the labels and the inertia. *)
Variables (kwargs labels : Type).
Variable kmeans_clustering :
  forall T : Type, array2 T -> Z -> kwargs -> result (labels * f32).

Definition cluster (self : t) (docs : obj) (k : Z) (options : kwargs)
  : result (labels * f32) :=
  if binary self then Raise ValueError
  else
    embeddings <- embed self docs true 32 ;;
    assert (Py.is_list docs) ;;;
    n <- Py.len docs ;;
    assert (k <=? Z.of_nat n) ;;;
    d0 <- Py.first docs ;;
    assert (is_str d0) ;;;
    kmeans_clustering embeddings k options.
End Cluster.

End WordLlamaInference.

Import WordLlamaInference.

(* ================================================================== *)
(** * A small engine to run the model on *)
(* ================================================================== *)

Module Toy.

(** A character tokenizer: ['a'] is token 0, ['b'] token 1, and so on; the
    batch is padded with token 0 under mask 0.  Anything but a string is
    refused, as the tokenizers library does. *)
Definition token_ids (s : string) : list Z :=
  map (fun c => Z.of_nat (Ascii.nat_of_ascii c) - 97) (list_ascii_of_string s).

Definition pad (n : nat) (l : list Z) : Encoding :=
  {| ids := l ++ repeat 0 (n - length l);
     attention_mask := repeat 1 (length l) ++ repeat 0 (n - length l) |}.

Fixpoint strings (l : list obj) : result (list string) :=
  match l with
  | [] => Ok []
  | PyStr s :: l' => ss <- strings l' ;; Ok (s :: ss)
  | _ :: _ => Raise TypeError
  end.

Definition encode_batch (texts : list obj) : result (list Encoding) :=
  ss <- strings texts ;;
  let toks := map token_ids ss in
  let n := fold_right Nat.max 0%nat (map (@length Z) toks) in
  Ok (map (pad n) toks).

Definition f (z : Z) : f32 := F32.of_Z z.

(** Three tokens in two dimensions. *)
Definition table2 : array2 f32 :=
  {| ncols := 2; rows := [[f 1; f 0]; [f 0; f 1]; [f 1; f 1]] |}.

Definition dense : WordLlamaInference.t :=
  {| binary := false; embedding := table2;
     WordLlamaInference.encode_batch := encode_batch |}.

(** Two tokens in [dim] dimensions, for the binary mode. *)
Definition table (dim : nat) : array2 f32 :=
  {| ncols := dim; rows := [repeat (f 1) dim; repeat (f (-1)) dim] |}.

Definition packed (dim : nat) : WordLlamaInference.t :=
  {| binary := true; embedding := table dim;
     WordLlamaInference.encode_batch := encode_batch |}.

(** A tokenizer that takes anything: a value that is not a string encodes
    as the empty text. *)
Definition lenient_encode_batch (texts : list obj) : result (list Encoding) :=
  let toks := map (fun x => match x with
                            | PyStr s => token_ids s
                            | _ => []
                            end) texts in
  let n := fold_right Nat.max 0%nat (map (@length Z) toks) in
  Ok (map (pad n) toks).

Definition lenient : WordLlamaInference.t :=
  {| binary := false; embedding := table2;
     WordLlamaInference.encode_batch := lenient_encode_batch |}.

(** A stand-in for [kmeans_clustering]: every document in cluster 0. *)
Definition kmeans (T : Type) (embeddings : array2 T) (k : Z) (_ : unit)
  : result (list nat * f32) :=
  Ok (repeat 0%nat (nrows embeddings), F32.zero).

End Toy.

(* ================================================================== *)
(** * Vocabulary of the statements *)
(* ================================================================== *)









(** The position of a float that is not NaN in the order that [<] and [==]
    decide: infinities outside, both zeros together, and in between the sign,
    then the exponent, then the mantissa. *)
Definition ord (x : f32) : Z * Z * Z :=
  match x with
  | S754_infinity true => (-2, 0, 0)
  | S754_finite true m e => (-1, - e, Z.neg m)
  | S754_zero _ => (0, 0, 0)
  | S754_nan => (0, 0, 0)
  | S754_finite false m e => (1, e, Z.pos m)
  | S754_infinity false => (2, 0, 0)
  end.

Definition lex_lt (p q : Z * Z * Z) : Prop :=
  let '(a, b, c) := p in
  let '(a', b', c') := q in
  a < a' \/ (a = a' /\ (b < b' \/ (b = b' /\ c < c'))).

Definition not_nan (x : f32) : Prop := F32.is_nan x = false.

(** [subseq l1 l2]: [l1] is [l2] with some elements dropped, the remaining
    ones in the order of [l2]. *)
Inductive subseq {A : Type} : list A -> list A -> Prop :=
| subseq_nil : subseq [] []
| subseq_drop x l1 l2 : subseq l1 l2 -> subseq l1 (x :: l2)
| subseq_keep x l1 l2 : subseq l1 l2 -> subseq (x :: l1) (x :: l2).

(** A threshold of nine tenths, as a float. *)
Definition nine_tenths : f32 := F32.div (F32.of_Z 9) (F32.of_Z 10).

(** The tokenizer returns one encoding for each text of the batch. *)
Definition one_encoding_per_text (self : WordLlamaInference.t) : Prop :=
  forall texts encs,
    WordLlamaInference.encode_batch self texts = Ok encs ->
    length encs = length texts.

(** Two floats that [==] cannot tell apart and that multiply and divide
    alike up to the sign of a zero: equal, or both zero. *)
Definition same_value (x y : f32) : Prop :=
  x = y \/ (F32.is_zero x = true /\ F32.is_zero y = true).


(* ================================================================== *)
(** * Properties *)
(* ================================================================== *)

Ltac inv H := inversion H; subst; clear H.

(** Case analysis on the outcome of a monadic step found in [H]. *)
Ltac bind_ok H :=
  match type of H with
  | Py.bind ?e _ = Ok _ =>
      let E := fresh "E" in
      destruct e eqn:E; simpl in H; [ | discriminate H ]
  end.

(** ** Shapes *)

Lemma foldM_invariant {A S} (P : S -> Prop) (f : S -> A -> result S) :
  (forall s a s', P s -> f s a = Ok s' -> P s') ->
  forall l s s', P s -> foldM f l s = Ok s' -> P s'.
Proof.
  intros step l; induction l as [ | a l IH ]; simpl; intros s s' Hs H.
  - now inv H.
  - destruct (f s a) eqn:E; [ | discriminate ].
    eapply IH; [ | exact H ]. eapply step; eauto.
Qed.

Lemma stretch_length {A} (k : nat) (l : list A) :
  length l = 1%nat -> length (stretch k l) = k.
Proof.
  destruct l as [ | x [ | y l ] ]; simpl; try discriminate.
  intros _. apply repeat_length.
Qed.

Lemma assign_rows_shape {T} (dst src d' : array2 T) (i : nat) :
  assign_rows dst i src = Ok d' -> shape d' = shape dst.
Proof.
  unfold assign_rows, shape, nrows.
  set (lo := Nat.min i _). set (hi := Nat.min (i + _) _).
  destruct (_ && _) eqn:C; [ | discriminate ].
  intros H; inv H; simpl. f_equal.
  apply andb_prop in C as [C _].
  rewrite !length_app, length_firstn, length_skipn.
  assert (Hsrc : length
            (if (ncols src =? ncols dst)%nat
             then if (length (rows src) =? hi - lo)%nat then rows src
                  else stretch (hi - lo) (rows src)
             else map (stretch (ncols dst))
                      (if (length (rows src) =? hi - lo)%nat then rows src
                       else stretch (hi - lo) (rows src))) = (hi - lo)%nat).
  { assert (L : length (if (length (rows src) =? hi - lo)%nat then rows src
                        else stretch (hi - lo) (rows src)) = (hi - lo)%nat).
    { destruct (length (rows src) =? hi - lo)%nat eqn:E1.
      - now apply Nat.eqb_eq.
      - simpl in C. apply stretch_length. now apply Nat.eqb_eq. }
    destruct (ncols src =? ncols dst)%nat; [ exact L | now rewrite length_map ]. }
  rewrite Hsrc. subst lo hi. lia.
Qed.

Lemma empty_shape {T} (x : T) (n d : nat) : shape (Np.empty x n d) = (n, d).
Proof. unfold shape, nrows; simpl. now rewrite repeat_length. Qed.

(** Whatever the mode, [embed] returns an array with one row per text and as
    many columns as the embedding table. *)
Lemma embed_shape (self : WordLlamaInference.t) texts norm batch_size out :
  embed self texts norm batch_size = Ok out ->
  exists l, check_texts texts = Ok l
            /\ shape out = (length l, ncols (embedding self)).
Proof.
  unfold embed; intros H.
  bind_ok H. bind_ok H.
  exists a; split; [ reflexivity | ].
  apply (foldM_invariant
           (fun s => shape s = (length a, ncols (embedding self)))) in H.
  - exact H.
  - intros s i s' Hs Hf. bind_ok Hf.
    apply assign_rows_shape in Hf. congruence.
  - apply empty_shape.
Qed.

Lemma normalize_nrows (a : array2 f32) :
  nrows (normalize_embeddings a) = nrows a.
Proof.
  unfold normalize_embeddings, div_rows, linalg_norm, nrows; simpl.
  now rewrite length_map, length_combine, length_map, Nat.min_id.
Qed.

Lemma matmul_T_shape (a b s : array2 f32) :
  matmul_T a b = Ok s ->
  shape s = (nrows a, nrows b)
  /\ Forall (fun r => length r = nrows b) (rows s).
Proof.
  unfold matmul_T. destruct (_ =? _)%nat; [ | discriminate ].
  intros H; inv H. unfold shape, nrows; simpl. split.
  - now rewrite length_map.
  - apply Forall_forall. intros r Hr. apply in_map_iff in Hr as (u & <- & _).
    now rewrite length_map.
Qed.

Lemma hamming_similarity_shape (a b : array2 Z) :
  shape (hamming_similarity a b) = (nrows a, nrows b)
  /\ Forall (fun r => length r = nrows b) (rows (hamming_similarity a b)).
Proof.
  unfold hamming_similarity, hamming_distance, shape, nrows; simpl. split.
  - now rewrite !length_map.
  - apply Forall_forall. intros r Hr.
    apply in_map_iff in Hr as (u & <- & Hu).
    apply in_map_iff in Hu as (v & <- & _).
    now rewrite !length_map.
Qed.

(** The score matrix of a 1-d [a] against [b] is a single row, as wide as
    [b] has rows or, on the shared-normalization branch, of width one. *)
Lemma vector_similarity_row (self : WordLlamaInference.t) q d s :
  vector_similarity self (Arr1 q) (Arr2 d) = Ok s ->
  exists r, rows s = [r] /\ length r = ncols s
            /\ (ncols s = nrows d \/ ncols s = 1%nat).
Proof.
  assert (G : forall (s : array2 f32) (n : nat),
             shape s = (1%nat, n) ->
             Forall (fun r => length r = n) (rows s) ->
             exists r, rows s = [r] /\ length r = ncols s).
  { intros s0 n Hs Hf. unfold shape, nrows in Hs. inv Hs.
    destruct (rows s0) as [ | r [ | ] ]; simpl in *; try discriminate.
    exists r; split; [ reflexivity | ]. now inv Hf. }
  unfold vector_similarity. destruct self as [m emb tok]; simpl in *.
  destruct m; simpl.
  - intros H; inv H.
    destruct (hamming_similarity_shape (expand_dims q) d)
      as [Hs Hf].
    destruct (G _ _ Hs Hf) as (r & Hr & Hl).
    exists r; repeat split; trivial. left. now inv Hs.
  - unfold cosine_similarity. intros H. bind_ok H.
    destruct a; [ unfold cosine_shared in H | unfold cosine_general in H ];
      apply matmul_T_shape in H as [Hs Hf];
      rewrite !normalize_nrows in *;
      destruct (G _ _ Hs Hf) as (r & Hr & Hl);
      exists r; repeat split; trivial;
      unfold shape in Hs; injection Hs as Hn Hc; [ right | left ]; exact Hc.
Qed.

Lemma squeeze_row {T} (s : array2 T) (r : list T) :
  rows s = [r] -> length r = ncols s ->
  match squeeze s with
  | Arr0 _ => ncols s = 1%nat
  | Arr1 v => v = r /\ ncols s <> 1%nat
  | Arr2 _ => False
  end.
Proof.
  unfold squeeze. intros -> Hl.
  destruct r as [ | x [ | y r ] ]; simpl in Hl; rewrite <- Hl; simpl; auto.
Qed.

Lemma check_texts_list (l : list obj) (l' : list obj) :
  check_texts (PyList l) = Ok l' -> l' = l.
Proof.
  unfold check_texts; simpl. destruct l as [ | x l ].
  - now intros H; inv H.
  - destruct (is_str x); [ now intros H; inv H | discriminate ].
Qed.

(** C10.  For every engine, query and single-element document list, [rank]
    raises instead of returning a one-element list: the 1x1 score matrix is
    squeezed to a 0-d array, whose [tolist()] is a float that [zip] cannot
    iterate.  [filter] squeezes in the same way and raises on a single
    candidate as well. *)
Theorem rank_single_doc_raises (self : WordLlamaInference.t)
  (query doc : obj) (threshold : f32) :
  (exists e, rank self query (PyList [doc]) = Raise e)
  /\ (exists e, WordLlamaInference.filter self query (PyList [doc]) threshold
                = Raise e).
Proof.
  assert (K : forall q d s,
             embed self (PyList [doc]) false 32 = Ok d ->
             vector_similarity self (Arr1 q) (Arr2 d) = Ok s ->
             exists x, squeeze s = Arr0 x).
  { intros q d s Hd Hs.
    apply embed_shape in Hd as (l & Hl & Hsh).
    apply check_texts_list in Hl; subst l. inv Hsh.
    apply vector_similarity_row in Hs as (r & Hr & Hlen & Hc).
    assert (C1 : ncols s = 1%nat) by (destruct Hc; congruence).
    pose proof (squeeze_row s Hr Hlen) as Q.
    destruct (squeeze s) as [ x | v | a ]; [ now exists x | | easy ].
    destruct Q as [_ Q]. contradiction. }
  split.
  - unfold rank.
    destruct (assert (is_str query)); simpl; [ | eauto ].
    destruct (embed self query false 32) as [ qe | ]; simpl; [ | eauto ].
    destruct (embed self (PyList [doc]) false 32) as [ de | ] eqn:Ed;
      simpl; [ | eauto ].
    destruct (row0 qe) as [ q0 | ]; simpl; [ | eauto ].
    destruct (vector_similarity self (Arr1 q0) (Arr2 de)) as [ s | ] eqn:Es;
      simpl; [ | eauto ].
    destruct (K _ _ _ eq_refl Es) as [x ->]. eauto.
  - unfold WordLlamaInference.filter.
    destruct (embed self query false 32) as [ qe | ]; simpl; [ | eauto ].
    destruct (embed self (PyList [doc]) false 32) as [ de | ] eqn:Ed;
      simpl; [ | eauto ].
    destruct (row0 qe) as [ q0 | ]; simpl; [ | eauto ].
    destruct (vector_similarity self (Arr1 q0) (Arr2 de)) as [ s | ] eqn:Es;
      simpl; [ | eauto ].
    destruct (K _ _ _ eq_refl Es) as [x ->]. eauto.
Qed.

(** ** Evaluations *)

(** An empty text has no token, and a padded text has masked tokens only
    after its own: the row of the empty text is the zero vector.  Normalizing
    it afterwards divides zero by a zero norm. *)
Example embed_empty_text :
  embed Toy.dense (PyList [PyStr "ab"; PyStr ""]) false 32
  = Ok {| ncols := 2;
          rows := [[S754_finite false 8388608 (-24);
                    S754_finite false 8388608 (-24)];
                   [S754_zero false; S754_zero false]] |}
  /\ embed Toy.dense (PyList [PyStr "ab"; PyStr ""]) true 32
     = Ok {| ncols := 2;
             rows := [[S754_finite false 11863283 (-24);
                       S754_finite false 11863283 (-24)];
                      [S754_nan; S754_nan]] |}.
Proof. split; vm_compute; reflexivity. Qed.

(** C1.  In binary mode the output array is allocated with [dim] columns, not
    [dim/64].  With a 64-dimensional table the packed batch, which has the
    one word per text that the specification describes, is broadcast over the 64
    columns, so [embed] returns shape [(1, 64)]; with a 128-dimensional table
    the two-word batch does not fit the 128 columns and the store raises. *)
Theorem embed_binary_output_has_dim_columns :
  (exists batch out,
      embed_batch (Toy.packed 64) [PyStr "a"] false = Ok batch
      /\ shape batch = (1, 64 / 64)%nat
      /\ embed (Toy.packed 64) (PyList [PyStr "a"]) false 32 = Ok out
      /\ shape out = (1, 64)%nat)
  /\ embed (Toy.packed 128) (PyList [PyStr "a"]) false 32 = Raise ValueError.
Proof.
  split.
  - eexists; eexists. split; [ vm_compute; reflexivity | ].
    split; [ reflexivity | ].
    split; [ vm_compute; reflexivity | reflexivity ].
  - vm_compute. reflexivity.
Qed.

(** C2.  In dense mode a single vector scored against two rows that both
    equal it yields a 1x1 matrix instead of 1x2: the comparison [a == b]
    broadcasts, so the shared-normalization branch is taken and returns
    [a @ a.T].  Two rows scored against three rows raise in the same
    comparison. *)
Theorem vector_similarity_dense_shape :
  (exists s,
      vector_similarity Toy.dense
        (Arr1 [Toy.f 1; Toy.f 0])
        (Arr2 {| ncols := 2;
                 rows := [[Toy.f 1; Toy.f 0]; [Toy.f 1; Toy.f 0]] |}) = Ok s
      /\ shape s = (1, 1)%nat)
  /\ vector_similarity Toy.dense
       (Arr2 {| ncols := 2;
                rows := [[Toy.f 1; Toy.f 0]; [Toy.f 0; Toy.f 1]] |})
       (Arr2 {| ncols := 2;
                rows := [[Toy.f 1; Toy.f 0]; [Toy.f 0; Toy.f 1];
                         [Toy.f 1; Toy.f 1]] |}) = Raise ValueError.
Proof.
  split.
  - eexists. split; [ vm_compute; reflexivity | reflexivity ].
  - vm_compute. reflexivity.
Qed.

(** C5.  The shared-normalization branch is taken for a one-row [a] and a
    two-row [b] whose rows both equal it, and there it returns the 1x1
    matrix [a @ a.T], while normalizing both operands gives the 1x2 matrix
    of ones. *)
Theorem cosine_shared_differs_from_general :
  let a := {| ncols := 2%nat; rows := [[Toy.f 1; Toy.f 0]] |} in
  let b := {| ncols := 2%nat;
              rows := [[Toy.f 1; Toy.f 0]; [Toy.f 1; Toy.f 0]] |} in
  all_equal a b = Ok true
  /\ cosine_similarity a b = Ok {| ncols := 1; rows := [[F32.one]] |}
  /\ cosine_general a b = Ok {| ncols := 2; rows := [[F32.one; F32.one]] |}.
Proof. repeat split; vm_compute; reflexivity. Qed.

(** C8.  Only [texts[0]] is checked.  A list whose 33rd element is an integer
    passes the checks; the first batch of 32 texts is embedded, and the
    [TypeError] comes from the tokenizer on the second batch.  With a
    tokenizer that accepts the integer, [embed] returns an array. *)
Theorem embed_checks_first_element_only :
  let texts := repeat (PyStr "a") 32 ++ [PyInt 1] in
  check_texts (PyList texts) = Ok texts
  /\ is_ok (embed_batch Toy.dense (Py.slice texts 0 32) false) = true
  /\ embed Toy.dense (PyList texts) false 32 = Raise TypeError
  /\ is_ok (embed Toy.lenient (PyList [PyStr "a"; PyInt 1]) false 32) = true.
Proof. repeat split; vm_compute; reflexivity. Qed.

(** ** Clamping of token ids *)














(** ** Masked average pooling *)

Lemma of_Z_0 : F32.of_Z 0 = F32.zero.
Proof. reflexivity. Qed.

Lemma mul_zero_is_zero (v z : f32) :
  F32.is_finite v = true -> F32.is_zero z = true ->
  F32.is_zero (F32.mul v z) = true.
Proof.
  destruct z; simpl; try discriminate.
  destruct v; simpl; try discriminate; reflexivity.
Qed.

Lemma add_zero_is_zero (x y : f32) :
  F32.is_zero x = true -> F32.is_zero y = true ->
  F32.is_zero (F32.add x y) = true.
Proof.
  destruct x as [ sx | | | ]; simpl; try discriminate.
  destruct y as [ sy | | | ]; simpl; try discriminate.
  destruct sx, sy; reflexivity.
Qed.

Lemma sum_zero_is_zero (l : list f32) :
  Forall (fun v => F32.is_zero v = true) l -> F32.is_zero (F32.sum l) = true.
Proof.
  unfold F32.sum. assert (Hz : F32.is_zero F32.zero = true) by reflexivity.
  revert Hz. generalize F32.zero.
  induction l as [ | y l IH ]; cbn [fold_left]; intros x Hx H;
    [ exact Hx | ].
  inv H. apply IH; [ now apply add_zero_is_zero | assumption ].
Qed.

Lemma div_zero_one_is_zero (x : f32) :
  F32.is_zero x = true -> F32.is_zero (F32.div x F32.one) = true.
Proof. destruct x; simpl; try discriminate; reflexivity. Qed.

(** The divisor of a text without unmasked tokens is the floor [1.0]. *)
Lemma maximum_zero_one (z : f32) :
  F32.is_zero z = true -> F32.maximum z F32.one = F32.one.
Proof. destruct z; simpl; try discriminate. reflexivity. Qed.

Lemma is_zero_not_nan_inf (v : f32) :
  F32.is_zero v = true -> F32.is_nan v = false /\ F32.is_inf v = false.
Proof. destruct v; simpl; try discriminate; auto. Qed.

Lemma binary_mask_sum_nonneg (m : list Z) :
  Forall (fun v => v = 0 \/ v = 1) m -> 0 <= fold_right Z.add 0 m.
Proof. induction 1 as [ | v l [-> | ->] _ IH ]; cbn [fold_right]; lia. Qed.

Lemma binary_mask_sum_zero (m : list Z) :
  Forall (fun v => v = 0 \/ v = 1) m -> fold_right Z.add 0 m = 0 ->
  Forall (fun v => v = 0) m.
Proof.
  induction 1 as [ | v l Hv Hl IH ]; cbn [fold_right]; intros S;
    [ constructor | ].
  pose proof (binary_mask_sum_nonneg Hl).
  constructor; [ lia | apply IH; lia ].
Qed.

Lemma zip_broadcast_same {A B C} (f : A -> B -> C) (n : nat) la lb :
  zip_broadcast f n n la lb
  = Some (map (fun p => f (fst p) (snd p)) (combine la lb)).
Proof.
  unfold zip_broadcast, broadcast_dim.
  rewrite Nat.eqb_refl. cbn iota. now rewrite Nat.eqb_refl.
Qed.

Lemma nth_error_combine {A B} (la : list A) (lb : list B) n a b :
  nth_error la n = Some a -> nth_error lb n = Some b ->
  nth_error (combine la lb) n = Some (a, b).
Proof.
  revert lb n. induction la as [ | x la IH ]; intros [ | y lb ] [ | n ];
    simpl; try discriminate.
  - now intros [= ->] [= ->].
  - apply IH.
Qed.

Lemma array_ok {T} (l : list (list T)) (a : array2 T) :
  array l = Ok a -> rows a = l /\ wf a.
Proof.
  unfold array, wf. destruct (forallb _ l) eqn:E; [ | discriminate ].
  intros H; inv H; simpl. split; [ reflexivity | ].
  apply Forall_forall. intros r Hr.
  rewrite forallb_forall in E. now apply Nat.eqb_eq, E.
Qed.

(** C3.  Let [mask] be the float array built from the integer attention masks
    of a batch and [x] the gathered token vectors, of the same shape.  For a
    text whose mask holds only 0 and 1 and sums to zero, and whose gathered
    vectors are finite, [avg_pool] returns, and the pooled row of that text
    has [dim] components, each a zero and hence neither NaN nor infinite:
    the divisor is the floor [1.0]. *)
Theorem avg_pool_all_masked_is_zero (dim : nat) (x : array2 (list f32))
  (masks : list (list Z)) (mask : array2 f32) (b : nat)
  (toks : list (list f32)) (m : list Z) :
  array_float32 masks = Ok mask ->
  shape x = shape mask ->
  nth_error (rows x) b = Some toks ->
  nth_error masks b = Some m ->
  Forall (fun v => v = 0 \/ v = 1) m ->
  fold_right Z.add 0 m = 0 ->
  Forall (Forall (fun v => F32.is_finite v = true)) toks ->
  F32.maximum (F32.sum (map F32.of_Z m)) F32.one = F32.one
  /\ exists out pooled,
       avg_pool dim x mask = Ok out
       /\ nth_error (rows out) b = Some pooled
       /\ length pooled = dim
       /\ Forall (fun v => F32.is_zero v = true
                           /\ F32.is_nan v = false
                           /\ F32.is_inf v = false) pooled.
Proof.
  intros Harr Hsh Hx Hm H01 Hsum Hfin.
  pose proof (binary_mask_sum_zero H01 Hsum) as Hz.
  assert (Hmz : Forall (fun v => F32.is_zero v = true) (map F32.of_Z m)).
  { apply Forall_forall. intros v Hv. apply in_map_iff in Hv as (z & <- & Hz').
    rewrite Forall_forall in Hz. now rewrite (Hz z Hz'). }
  assert (Hmax : F32.maximum (F32.sum (map F32.of_Z m)) F32.one = F32.one)
    by (apply maximum_zero_one, sum_zero_is_zero, Hmz).
  split; [ exact Hmax | ].
  unfold array_float32 in Harr. apply array_ok in Harr as [Hrows _].
  unfold shape in Hsh. injection Hsh as Hn Hc.
  assert (Hmb : nth_error (rows mask) b = Some (map F32.of_Z m))
    by (rewrite Hrows, nth_error_map, Hm; reflexivity).
  unfold avg_pool. rewrite Hn, Hc.
  unfold broadcast_dim at 1. rewrite Nat.eqb_refl. cbn [broadcast Py.bind].
  rewrite zip_broadcast_same. cbn [broadcast Py.bind].
  match goal with
  | |- context [map (sum_axis1 dim) ?p] => set (prod := p)
  end.
  match goal with
  | |- context [zip_broadcast _ _ (length ?ms)] => set (mask_sum := ms)
  end.
  assert (Hlen : length (map (sum_axis1 dim) prod) = length mask_sum).
  { subst prod mask_sum. rewrite !length_map, length_combine.
    unfold nrows in Hn. lia. }
  rewrite Hlen, zip_broadcast_same. cbn [broadcast Py.bind].
  eexists; eexists. split; [ reflexivity | ]. cbn [rows].
  split; [ | split ].
  - rewrite nth_error_map.
    erewrite nth_error_combine; [ reflexivity | | ].
    + subst prod. rewrite !nth_error_map.
      erewrite nth_error_combine; [ reflexivity | exact Hx | exact Hmb ].
    + subst mask_sum. rewrite nth_error_map, Hmb. reflexivity.
  - cbn [fst snd option_map]. unfold sum_axis1.
    now rewrite !length_map, length_seq.
  - cbn [fst snd option_map]. rewrite Hmax, zip_broadcast_same.
    apply Forall_forall. intros v Hv.
    apply in_map_iff in Hv as (s & <- & Hs).
    unfold sum_axis1 in Hs. apply in_map_iff in Hs as (d & <- & _).
    assert (Z0 : F32.is_zero
                   (F32.div
                      (F32.sum
                         (map (fun tok => nth d tok F32.zero)
                              (map (fun p => map (fun v => F32.mul v (snd p))
                                                 (fst p))
                                   (combine toks (map F32.of_Z m)))))
                      F32.one) = true).
    { apply div_zero_one_is_zero, sum_zero_is_zero.
      apply Forall_forall. intros v Hv.
      apply in_map_iff in Hv as (tok & <- & Htok).
      apply in_map_iff in Htok as ([t z] & <- & Hp). cbn [fst snd].
      destruct (nth_in_or_default d (map (fun v => F32.mul v z) t) F32.zero)
        as [Hin | ->]; [ | reflexivity ].
      apply in_map_iff in Hin as (v & <- & Hv).
      apply mul_zero_is_zero.
      - apply in_combine_l in Hp. rewrite Forall_forall in Hfin.
        specialize (Hfin t Hp). rewrite Forall_forall in Hfin. now apply Hfin.
      - apply in_combine_r in Hp. rewrite Forall_forall in Hmz.
        now apply Hmz. }
    split; [ exact Z0 | now apply is_zero_not_nan_inf ].
Qed.

(** ** Hamming similarity *)


(** The population count of an XOR counts the positions, among the 64 of a
    word, at which the two words differ. *)
Lemma popcount64_lxor (x y : Z) :
  popcount64 (Z.lxor x y)
  = Z.of_nat (length (List.filter
                        (fun k => xorb (Z.testbit x k) (Z.testbit y k))
                        (map Z.of_nat (seq 0 64)))).
Proof.
  unfold popcount64. do 2 f_equal. apply filter_ext. intros k.
  apply Z.lxor_spec.
Qed.




(** *** The three float operations of the score *)





















(** ** [list.sort]: order and stability *)

Section SortFacts.
Variables (A K : Type) (lt eqb : K -> K -> bool) (key : A -> K).

Variable ok : K -> Prop.
Hypothesis lt_asym :
  forall x y, ok x -> ok y -> lt x y = true -> lt y x = false.
Hypothesis lt_negtrans :
  forall x y z, ok x -> ok y -> ok z ->
                lt x y = false -> lt y z = false -> lt x z = false.
Hypothesis eqb_incomparable :
  forall x y, ok x -> ok y ->
              (eqb x y = true <-> lt x y = false /\ lt y x = false).

Let ascending (a b : A) : Prop := lt (key b) (key a) = false.
Let descending (a b : A) : Prop := lt (key a) (key b) = false.
Let falling (a b : A) : Prop := lt (key b) (key a) = true.
Let all_ok (l : list A) : Prop := Forall (fun a => ok (key a)) l.
Let same (s : K) (a : A) : bool := eqb (key a) s.

Lemma insort_perm (x : A) (l : list A) :
  Permutation (insort lt key x l) (x :: l).
Proof.
  unfold insort. set (pos := bisect _ _ _ _ _ _).
  rewrite <- Permutation_middle. now rewrite firstn_skipn.
Qed.

Lemma binarysort_perm (rest run : list A) :
  Permutation (binarysort lt key run rest) (run ++ rest).
Proof.
  unfold binarysort. revert run.
  induction rest as [ | x rest IH ]; intros run; simpl.
  - now rewrite app_nil_r.
  - rewrite IH, insort_perm. simpl. apply Permutation_middle.
Qed.

Lemma sort_forward_perm (l : list A) : Permutation (sort_forward lt key l) l.
Proof.
  unfold sort_forward. destruct (count_run lt key l) as [n d].
  rewrite binarysort_perm.
  transitivity (firstn n l ++ skipn n l);
    [ | now rewrite firstn_skipn ].
  apply Permutation_app_tail.
  destruct d; [ symmetry; apply Permutation_rev | reflexivity ].
Qed.

Lemma sorted_nth (R : A -> A -> Prop) (l : list A) :
  StronglySorted R l ->
  forall i j a b, (i < j)%nat ->
    nth_error l i = Some a -> nth_error l j = Some b -> R a b.
Proof.
  induction 1 as [ | x l Hs IH Hx ]; intros i j a b Hij Ha Hb.
  - destruct i; discriminate.
  - destruct j as [ | j ]; [ lia | ]. simpl in Hb.
    destruct i as [ | i ]; simpl in Ha.
    + inversion Ha; subst. rewrite Forall_forall in Hx. apply Hx.
      eapply nth_error_In; eauto.
    + apply (IH i j); auto; lia.
Qed.

(** On a run in ascending order the bisection finds the place behind the
    last element that the pivot is not smaller than. *)
Lemma bisect_spec (x : A) (run : list A) :
  ok (key x) -> all_ok run -> StronglySorted ascending run ->
  forall fuel l r,
    (l <= r <= length run)%nat -> (r - l <= fuel)%nat ->
    (forall i y, (i < l)%nat -> nth_error run i = Some y ->
                 lt (key x) (key y) = false) ->
    (forall i y, (r <= i)%nat -> nth_error run i = Some y ->
                 lt (key x) (key y) = true) ->
    let pos := bisect lt key fuel x run l r in
    (pos <= length run)%nat
    /\ (forall i y, (i < pos)%nat -> nth_error run i = Some y ->
                    lt (key x) (key y) = false)
    /\ (forall i y, (pos <= i)%nat -> nth_error run i = Some y ->
                    lt (key x) (key y) = true).
Proof.
  intros Ox Or Hs. unfold all_ok in Or. rewrite Forall_forall in Or.
  induction fuel as [ | fuel IH ]; intros l r Hlr Hf Hlo Hhi; cbn [bisect].
  - assert (l = r) by lia. subst. repeat split; auto; lia.
  - destruct (Nat.ltb_spec l r) as [ Hlt | Hge ].
    2:{ assert (l = r) by lia. subst. repeat split; auto; lia. }
    assert (Hp : (l <= l + (r - l) / 2 < r)%nat).
    { split; [ lia | ]. assert ((r - l) / 2 < r - l)%nat; [ | lia ].
      apply Nat.div_lt; lia. }
    set (p := (l + (r - l) / 2)%nat) in *.
    destruct (nth_error run p) as [ y | ] eqn:Ey.
    2:{ apply nth_error_None in Ey. lia. }
    assert (Oy : ok (key y)) by (apply Or; eapply nth_error_In; eauto).
    destruct (lt (key x) (key y)) eqn:C.
    + apply IH; auto; try lia.
      intros i z Hi Ez.
      destruct (Nat.eq_dec i p) as [ -> | Hne ]; [ congruence | ].
      assert (Oz : ok (key z)) by (apply Or; eapply nth_error_In; eauto).
      assert (Hyz : lt (key z) (key y) = false).
      { apply (@sorted_nth ascending run Hs p i y z); auto. lia. }
      destruct (lt (key x) (key z)) eqn:Cz; [ reflexivity | ].
      rewrite (lt_negtrans Ox Oz Oy Cz Hyz) in C. discriminate.
    + apply IH; auto; try lia.
      intros i z Hi Ez.
      destruct (Nat.eq_dec i p) as [ -> | Hne ]; [ congruence | ].
      assert (Oz : ok (key z)) by (apply Or; eapply nth_error_In; eauto).
      assert (Hzy : lt (key y) (key z) = false).
      { apply (@sorted_nth ascending run Hs i p z y); auto. lia. }
      exact (lt_negtrans Ox Oy Oz C Hzy).
Qed.

Lemma insort_place (x : A) (run : list A) :
  ok (key x) -> all_ok run -> StronglySorted ascending run ->
  exists pos,
    insort lt key x run = firstn pos run ++ x :: skipn pos run
    /\ Forall (fun y => lt (key x) (key y) = false) (firstn pos run)
    /\ Forall (fun y => lt (key x) (key y) = true) (skipn pos run).
Proof.
  intros Ox Or Hs.
  destruct (@bisect_spec x run Ox Or Hs (length run) 0 (length run))
    as (Hp & Hlo & Hhi); try lia.
  - intros i y Hi E. apply nth_error_None in Hi. congruence.
  - exists (bisect lt key (length run) x run 0 (length run)).
    split; [ reflexivity | ]. split; apply Forall_forall; intros y Hy.
    + apply In_nth_error in Hy as [i Hi].
      assert (L : (i < bisect lt key (length run) x run 0 (length run))%nat).
      { assert (N : nth_error (firstn (bisect lt key (length run) x run 0
                                         (length run)) run) i <> None)
          by congruence.
        apply nth_error_Some in N. rewrite length_firstn in N. lia. }
      rewrite nth_error_firstn in Hi.
      destruct (Nat.ltb_spec i (bisect lt key (length run) x run 0
                                  (length run))); [ | lia ].
      eapply Hlo; eauto.
    + apply In_nth_error in Hy as [i Hi]. rewrite nth_error_skipn in Hi.
      eapply Hhi; [ | exact Hi ]. lia.
Qed.

Lemma StronglySorted_insert (R : A -> A -> Prop) (a b : list A) (x : A) :
  StronglySorted R (a ++ b) ->
  Forall (fun y => R y x) a -> Forall (fun y => R x y) b ->
  StronglySorted R (a ++ x :: b).
Proof.
  induction a as [ | y a IH ]; simpl; intros Hs Ha Hb.
  - now constructor.
  - inversion Hs as [ | ? ? Hs' Hy ]; subst. inversion Ha; subst.
    constructor; [ now apply IH | ].
    apply Forall_app in Hy as [Hy1 Hy2].
    apply Forall_app; split; [ exact Hy1 | now constructor ].
Qed.

Lemma insort_sorted (x : A) (l : list A) :
  ok (key x) -> all_ok l ->
  StronglySorted ascending l -> StronglySorted ascending (insort lt key x l).
Proof.
  intros Ox Ol Hs.
  destruct (insort_place Ox Ol Hs) as (pos & -> & Hlo & Hhi).
  apply StronglySorted_insert.
  - now rewrite firstn_skipn.
  - exact Hlo.
  - assert (Ok' : all_ok (skipn pos l)).
    { unfold all_ok in *. rewrite Forall_forall in *. intros y Hy. apply Ol.
      rewrite <- (firstn_skipn pos l). apply in_or_app. now right. }
    unfold all_ok in Ok'. rewrite Forall_forall in *. intros y Hy.
    apply lt_asym; auto.
Qed.

Lemma filter_none (f : A -> bool) (l : list A) :
  Forall (fun y => f y = false) l -> List.filter f l = [].
Proof.
  induction 1 as [ | y l Hy _ IH ]; simpl; [ reflexivity | ].
  now rewrite Hy.
Qed.

Lemma insort_same (s : K) (x : A) (l : list A) :
  ok s -> ok (key x) -> all_ok l -> StronglySorted ascending l ->
  List.filter (same s) (insort lt key x l)
  = List.filter (same s) l ++ (if same s x then [x] else []).
Proof.
  intros Os Ox Ol Hs.
  destruct (insort_place Ox Ol Hs) as (pos & -> & Hlo & Hhi).
  rewrite <- (firstn_skipn pos l) at 3.
  rewrite !filter_app. cbn [List.filter].
  destruct (same s x) eqn:Sx; [ | now rewrite app_nil_r ].
  assert (N : List.filter (same s) (skipn pos l) = []).
  { apply filter_none.
    assert (Ok' : all_ok (skipn pos l)).
    { unfold all_ok in *. rewrite Forall_forall in *. intros y Hy. apply Ol.
      rewrite <- (firstn_skipn pos l). apply in_or_app. now right. }
    unfold all_ok in Ok'. rewrite Forall_forall in *. intros y Hy.
    destruct (same s y) eqn:Sy; [ | reflexivity ].
    apply eqb_incomparable in Sx as [Sx1 Sx2]; auto.
    apply eqb_incomparable in Sy as [Sy1 Sy2]; auto.
    specialize (Hhi y Hy).
    rewrite (lt_negtrans Ox Os (Ok' y Hy) Sx1 Sy2) in Hhi. discriminate. }
  rewrite N. now rewrite app_nil_r.
Qed.

Lemma binarysort_from (l run : list A) :
  all_ok l -> all_ok run -> StronglySorted ascending run ->
  let r := binarysort lt key run l in
  StronglySorted ascending r
  /\ forall s, ok s ->
       List.filter (same s) r
       = List.filter (same s) run ++ List.filter (same s) l.
Proof.
  unfold binarysort. revert run.
  induction l as [ | x l IH ]; intros run Hl Ha Hs; simpl.
  - split; [ exact Hs | ]. intros; now rewrite app_nil_r.
  - inversion Hl as [ | ? ? Ox Ol ]; subst.
    destruct (IH (insort lt key x run)) as (S1 & F1); auto.
    + apply (Permutation_Forall (Permutation_sym (insort_perm x run))).
      now constructor.
    + now apply insort_sorted.
    + split; [ exact S1 | ].
      intros s Os. rewrite (F1 s Os), (@insort_same s x run Os Ox Ha Hs).
      rewrite <- app_assoc. f_equal. now destruct (same s x).
Qed.

(** The run that opens a list, when it does not descend. *)
Lemma ascending_run_sorted (l : list A) :
  forall x, ok (key x) -> all_ok l ->
    StronglySorted ascending (x :: firstn (ascending_run lt key x l) l).
Proof.
  induction l as [ | y l IH ]; intros x Ox Ol; simpl.
  - repeat constructor.
  - inversion Ol as [ | ? ? Oy Ol' ]; subst.
    destruct (lt (key y) (key x)) eqn:C; simpl; [ repeat constructor | ].
    specialize (IH y Oy Ol'). constructor; [ exact IH | ].
    constructor; [ exact C | ].
    inversion IH as [ | ? ? _ Hy ]; subst.
    assert (Oz : all_ok (firstn (ascending_run lt key y l) l)).
    { unfold all_ok in *. rewrite Forall_forall in *. intros z Hz. apply Ol'.
      rewrite <- (firstn_skipn (ascending_run lt key y l) l).
      apply in_or_app. now left. }
    unfold all_ok in Oz. rewrite Forall_forall in *. intros z Hz.
    unfold ascending. apply lt_negtrans with (y := key y); auto.
    now apply Hy.
Qed.

Lemma key_lt_trans (x y z : K) :
  ok x -> ok y -> ok z -> lt x y = true -> lt y z = true -> lt x z = true.
Proof.
  intros Ox Oy Oz Hxy Hyz. destruct (lt x z) eqn:E; [ reflexivity | ].
  rewrite (lt_negtrans Ox Oz Oy E (lt_asym Oy Oz Hyz)) in Hxy. discriminate.
Qed.

(** The run that opens a list, when it descends strictly. *)
Lemma descending_run_sorted (l : list A) :
  forall x, ok (key x) -> all_ok l ->
    StronglySorted falling (x :: firstn (descending_run lt key x l) l).
Proof.
  induction l as [ | y l IH ]; intros x Ox Ol; simpl.
  - repeat constructor.
  - inversion Ol as [ | ? ? Oy Ol' ]; subst.
    destruct (lt (key y) (key x)) eqn:C; simpl; [ | repeat constructor ].
    specialize (IH y Oy Ol'). constructor; [ exact IH | ].
    constructor; [ exact C | ].
    inversion IH as [ | ? ? _ Hy ]; subst.
    assert (Oz : all_ok (firstn (descending_run lt key y l) l)).
    { unfold all_ok in *. rewrite Forall_forall in *. intros z Hz. apply Ol'.
      rewrite <- (firstn_skipn (descending_run lt key y l) l).
      apply in_or_app. now left. }
    unfold all_ok in Oz. rewrite Forall_forall in *. intros z Hz.
    unfold falling. apply key_lt_trans with (y := key y); auto.
    now apply Hy.
Qed.

Lemma StronglySorted_snoc (R : A -> A -> Prop) (l : list A) (a : A) :
  StronglySorted R l -> Forall (fun b => R b a) l ->
  StronglySorted R (l ++ [a]).
Proof.
  induction 1 as [ | b l Hs IH Hb ]; simpl; intros Ha.
  - repeat constructor.
  - inversion Ha; subst. constructor; [ now apply IH | ].
    apply Forall_app; split; [ exact Hb | now repeat constructor ].
Qed.

Lemma StronglySorted_rev (R : A -> A -> Prop) (l : list A) :
  StronglySorted R l -> StronglySorted (fun a b => R b a) (rev l).
Proof.
  induction 1 as [ | a l Hs IH Ha ]; simpl; [ constructor | ].
  apply StronglySorted_snoc; [ exact IH | ].
  rewrite Forall_forall in *. intros b Hb. apply Ha. now apply in_rev.
Qed.

(** A strictly descending run has at most one element of each key. *)
Lemma falling_same (s : K) (l : list A) :
  ok s -> all_ok l -> StronglySorted falling l ->
  List.filter (same s) (rev l) = List.filter (same s) l.
Proof.
  intros Os Ol Hs. rewrite filter_rev.
  assert (L : (length (List.filter (same s) l) <= 1)%nat).
  { induction Hs as [ | x l Hs IH Hx ]; simpl; [ lia | ].
    inversion Ol as [ | ? ? Ox Ol' ]; subst.
    destruct (same s x) eqn:Sx; [ | now apply IH ].
    rewrite filter_none; [ simpl; lia | ].
    unfold all_ok in Ol'. rewrite Forall_forall in *. intros y Hy.
    destruct (same s y) eqn:Sy; [ | reflexivity ].
    apply eqb_incomparable in Sx as [Sx1 Sx2]; auto.
    apply eqb_incomparable in Sy as [Sy1 Sy2]; auto.
    specialize (Hx y Hy). unfold falling in Hx.
    rewrite (lt_negtrans (Ol' y Hy) Os Ox Sy1 Sx2) in Hx. discriminate. }
  destruct (List.filter (same s) l) as [ | a [ | b l' ] ]; simpl in *;
    try reflexivity; lia.
Qed.

Lemma falling_rev_ascending (l : list A) :
  all_ok l -> StronglySorted falling l -> StronglySorted ascending (rev l).
Proof.
  intros Ol Hs. apply StronglySorted_rev in Hs.
  assert (Or : all_ok (rev l))
    by (apply (Permutation_Forall (Permutation_rev l)); exact Ol).
  revert Or. induction Hs as [ | x r Hs IH Hx ]; intros Or;
    constructor.
  - inversion Or; subst. now apply IH.
  - inversion Or as [ | ? ? Ox Or' ]; subst.
    unfold all_ok in Or'. rewrite Forall_forall in *. intros y Hy.
    unfold ascending. apply lt_asym; auto. now apply Hx.
Qed.

(** The forward sort on keys that [<] orders: ascending, and the elements
    of every key in their original order. *)
Lemma sort_forward_spec (l : list A) :
  all_ok l ->
  let r := sort_forward lt key l in
  StronglySorted ascending r
  /\ forall s, ok s -> List.filter (same s) r = List.filter (same s) l.
Proof.
  intros Ol. unfold sort_forward.
  destruct (count_run lt key l) as [n d] eqn:C.
  assert (Of : all_ok (firstn n l)).
  { unfold all_ok in *. rewrite Forall_forall in *. intros z Hz. apply Ol.
    rewrite <- (firstn_skipn n l). apply in_or_app. now left. }
  assert (Os : all_ok (skipn n l)).
  { unfold all_ok in *. rewrite Forall_forall in *. intros z Hz. apply Ol.
    rewrite <- (firstn_skipn n l). apply in_or_app. now right. }
  assert (R : StronglySorted ascending
                (if d then rev (firstn n l) else firstn n l)
              /\ forall s, ok s ->
                   List.filter (same s)
                     (if d then rev (firstn n l) else firstn n l)
                   = List.filter (same s) (firstn n l)).
  { destruct l as [ | x [ | y l ] ].
    - inversion C; subst. simpl. split; [ constructor | reflexivity ].
    - inversion C; subst. simpl. split; [ repeat constructor | reflexivity ].
    - inversion Ol as [ | ? ? Ox Ol1 ]; subst.
      inversion Ol1 as [ | ? ? Oy Ol2 ]; subst.
      simpl in C. destruct (lt (key y) (key x)) eqn:E; inversion C; subst.
      + assert (F : StronglySorted falling
                      (x :: y :: firstn (descending_run lt key y l) l)).
        { pose proof (@descending_run_sorted (y :: l) x Ox Ol1) as D.
          simpl in D. now rewrite E in D. }
        split.
        * now apply falling_rev_ascending.
        * intros s Hs. now apply falling_same.
      + split; [ | reflexivity ].
        pose proof (@ascending_run_sorted (y :: l) x Ox Ol1) as D.
        simpl in D. now rewrite E in D. }
  destruct R as [R1 R2].
  assert (Od : all_ok (if d then rev (firstn n l) else firstn n l)).
  { destruct d; [ | exact Of ].
    apply (Permutation_Forall (Permutation_rev (firstn n l))); exact Of. }
  destruct (@binarysort_from (skipn n l) _ Os Od R1) as [S1 F1].
  split; [ exact S1 | ].
  intros s Hs. rewrite (F1 s Hs), (R2 s Hs), <- filter_app.
  now rewrite firstn_skipn.
Qed.

(** [sort(reverse=True)] on keys that [<] orders: the result is a
    permutation in descending order in which the elements of every key
    keep their original order. *)
Lemma sort_reverse_spec (l : list A) :
  all_ok l ->
  let r := Py.sort lt key true l in
  StronglySorted descending r
  /\ Permutation l r
  /\ forall s, ok s -> List.filter (same s) r = List.filter (same s) l.
Proof.
  intros Hl. unfold Py.sort.
  assert (Hr : all_ok (rev l))
    by (apply (Permutation_Forall (Permutation_rev l)); exact Hl).
  destruct (@sort_forward_spec (rev l) Hr) as (S1 & F1).
  split; [ | split ].
  - apply StronglySorted_rev in S1. exact S1.
  - rewrite <- Permutation_rev, sort_forward_perm. apply Permutation_rev.
  - intros s Os. rewrite filter_rev, (F1 s Os).
    now rewrite filter_rev, rev_involutive.
Qed.
End SortFacts.

(** ** The order of floats *)

Ltac compare_cases :=
  repeat match goal with
    | |- context [Z.compare ?a ?b] => destruct (Z.compare_spec a b)
    | |- context [Pos.compare_cont Eq ?a ?b] =>
        change (Pos.compare_cont Eq a b) with (Pos.compare a b);
        destruct (Pos.compare_spec a b)
    end.

Lemma ltb_ord (x y : f32) :
  not_nan x -> not_nan y -> (F32.ltb x y = true <-> lex_lt (ord x) (ord y)).
Proof.
  unfold not_nan, F32.ltb, SFltb.
  destruct x as [ sx | sx | | sx mx ex ], y as [ sy | sy | | sy my ey ];
    try discriminate; intros _ _;
    try destruct sx; try destruct sy; cbn -[Z.compare Pos.compare_cont];
    compare_cases; cbn; split; intros; try discriminate; try lia.
Qed.

Lemma eqb_ord (x y : f32) :
  not_nan x -> not_nan y -> (F32.eqb x y = true <-> ord x = ord y).
Proof.
  unfold not_nan, F32.eqb, SFeqb.
  destruct x as [ sx | sx | | sx mx ex ], y as [ sy | sy | | sy my ey ];
    try discriminate; intros _ _;
    try destruct sx; try destruct sy; cbn -[Z.compare Pos.compare_cont];
    compare_cases; cbn; split; intros E; try discriminate;
    try reflexivity; try (injection E; intros; lia);
    try (f_equal; f_equal; lia); try (repeat f_equal; lia).
Qed.

Lemma ltb_asym (x y : f32) :
  not_nan x -> not_nan y -> F32.ltb x y = true -> F32.ltb y x = false.
Proof.
  intros Hx Hy H. apply (ltb_ord Hx Hy) in H.
  destruct (F32.ltb y x) eqn:E; [ | reflexivity ].
  apply (ltb_ord Hy Hx) in E. unfold lex_lt in *.
  destruct (ord x) as [[a b] c], (ord y) as [[a' b'] c']. lia.
Qed.

Lemma ltb_negtrans (x y z : f32) :
  not_nan x -> not_nan y -> not_nan z ->
  F32.ltb x y = false -> F32.ltb y z = false -> F32.ltb x z = false.
Proof.
  intros Hx Hy Hz Hxy Hyz.
  destruct (F32.ltb x z) eqn:E; [ | reflexivity ].
  apply (ltb_ord Hx Hz) in E.
  assert (Nxy : ~ lex_lt (ord x) (ord y))
    by (intros C; apply (ltb_ord Hx Hy) in C; congruence).
  assert (Nyz : ~ lex_lt (ord y) (ord z))
    by (intros C; apply (ltb_ord Hy Hz) in C; congruence).
  unfold lex_lt in *.
  destruct (ord x) as [[a b] c], (ord y) as [[a' b'] c'],
           (ord z) as [[a'' b''] c'']. lia.
Qed.

Lemma eqb_incomparable (x y : f32) :
  not_nan x -> not_nan y ->
  (F32.eqb x y = true <-> F32.ltb x y = false /\ F32.ltb y x = false).
Proof.
  intros Hx Hy. rewrite (eqb_ord Hx Hy).
  assert (Lxy := ltb_ord Hx Hy). assert (Lyx := ltb_ord Hy Hx).
  destruct (F32.ltb x y), (F32.ltb y x); unfold lex_lt in *;
    destruct (ord x) as [[a b] c], (ord y) as [[a' b'] c'];
    split; intros E;
    try (injection E; intros; subst);
    try (destruct E; discriminate);
    try (assert (T : true = true) by reflexivity;
         try apply Lxy in T; try apply Lyx in T; lia).
  assert (~ (a < a' \/ a = a' /\ (b < b' \/ b = b' /\ c < c')))
    by (intros C; apply Lxy in C; discriminate).
  assert (~ (a' < a \/ a' = a /\ (b' < b \/ b' = b /\ c' < c)))
    by (intros C; apply Lyx in C; discriminate).
  repeat f_equal; lia.
Qed.


Lemma sort_perm {A K} (lt : K -> K -> bool) (key : A -> K) (reverse : bool)
  (l : list A) : Permutation l (Py.sort lt key reverse l).
Proof.
  unfold Py.sort. destruct reverse.
  - rewrite <- Permutation_rev, sort_forward_perm. apply Permutation_rev.
  - symmetry. apply sort_forward_perm.
Qed.

(** ** Ranking *)




(** ** Deduplication *)

Lemma subseq_In {A} (l1 l2 : list A) :
  subseq l1 l2 -> forall x, In x l1 -> In x l2.
Proof.
  induction 1 as [ | y l1 l2 _ IH | y l1 l2 _ IH ]; simpl; intros x Hx; auto.
  destruct Hx as [-> | Hx]; auto.
Qed.

Lemma filter_indexed_subseq {A} (keep : nat * A -> bool) (l : list A) :
  forall start,
    subseq (map snd (List.filter keep (combine (seq start (length l)) l))) l.
Proof.
  induction l as [ | x l IH ]; intros start; simpl; [ constructor | ].
  destruct (keep (start, x)); simpl; constructor; apply IH.
Qed.

(** C9.  Whatever [process_batches_cy] marks, whatever the threshold and the
    batch size, the list that [deduplicate] returns for a list of documents
    is a subsequence of that list: the surviving documents in their original
    relative order, each of them an element of the input. *)
Theorem deduplicate_subsequence
  (process_batches :
     forall T : Type, array2 T -> f32 -> nat ->
       (ndarray T -> ndarray T -> result (array2 f32)) -> result (list nat))
  (self : WordLlamaInference.t) (docs : list obj) (threshold : f32)
  (batch_size : option nat) (unique_docs : list obj) :
  deduplicate process_batches self (PyList docs) threshold batch_size
  = Ok unique_docs ->
  subseq unique_docs docs /\ (forall d, In d unique_docs -> In d docs).
Proof.
  unfold deduplicate. intros H. bind_ok H. bind_ok H.
  simpl in H. inv H.
  assert (S : subseq
                (map snd
                   (List.filter
                      (fun p : nat * obj => negb (existsb (Nat.eqb (fst p)) a0))
                      (enumerate docs))) docs)
    by apply filter_indexed_subseq.
  split; [ exact S | now apply subseq_In ].
Qed.

(** ** The theorems at concrete inputs *)

(** A batch of two texts of two tokens; the second text is fully masked. *)
Lemma avg_pool_all_masked_is_zero_witness :
  let x := {| ncols := 2%nat;
              rows := [[[Toy.f 1; Toy.f 0]; [Toy.f 0; Toy.f 1]];
                       [[Toy.f (-1); Toy.f 1]; [Toy.f 1; Toy.f 1]]] |} in
  let mask := {| ncols := 2%nat;
                 rows := [[Toy.f 1; Toy.f 1]; [Toy.f 0; Toy.f 0]] |} in
  array_float32 [[1; 1]; [0; 0]] = Ok mask
  /\ F32.maximum (F32.sum (map F32.of_Z [0; 0])) F32.one = F32.one
  /\ exists out pooled,
       avg_pool 2 x mask = Ok out
       /\ nth_error (rows out) 1 = Some pooled
       /\ length pooled = 2%nat
       /\ Forall (fun v => F32.is_zero v = true
                           /\ F32.is_nan v = false
                           /\ F32.is_inf v = false) pooled.
Proof.
  intros x mask. split; [ reflexivity | ].
  apply (@avg_pool_all_masked_is_zero 2 x [[1; 1]; [0; 0]] mask 1%nat
           [[Toy.f (-1); Toy.f 1]; [Toy.f 1; Toy.f 1]] [0; 0]).
  - reflexivity.
  - reflexivity.
  - reflexivity.
  - reflexivity.
  - repeat constructor.
  - reflexivity.
  - repeat constructor.
Defined.





(** The third document repeats the first and is dropped. *)
Lemma deduplicate_subsequence_witness :
  let docs := [PyStr "a"; PyStr "b"; PyStr "a"; PyStr "c"] in
  let unique_docs := [PyStr "a"; PyStr "b"; PyStr "c"] in
  deduplicate process_batches_cy Toy.dense (PyList docs) nine_tenths None
  = Ok unique_docs
  /\ subseq unique_docs docs
  /\ (forall d, In d unique_docs -> In d docs).
Proof.
  intros docs unique_docs.
  assert (H : deduplicate process_batches_cy Toy.dense (PyList docs)
                nine_tenths None = Ok unique_docs)
    by (vm_compute; reflexivity).
  split; [ exact H | ].
  exact (deduplicate_subsequence process_batches_cy Toy.dense docs
           nine_tenths None H).
Defined.

(* ================================================================== *)
(** * Further properties of the engine *)
(* ================================================================== *)

(** ** The output array of [embed] *)

Lemma mapM_length {A B} (f : A -> result B) (l : list A) (bs : list B) :
  mapM f l = Ok bs -> length bs = length l.
Proof.
  revert bs. induction l as [ | a l IH ]; simpl; intros bs H.
  - now inv H.
  - bind_ok H. bind_ok H. inv H. simpl. f_equal. now apply IH.
Qed.

Lemma zip_broadcast_rows {A B C} (f : A -> B -> C) (n : nat) la lb out :
  length la = n -> length lb = n ->
  zip_broadcast f n n la lb = Some out -> length out = n.
Proof.
  intros Ha Hb. rewrite zip_broadcast_same. intros H; inv H.
  rewrite length_map, length_combine. lia.
Qed.

Lemma zip_broadcast_In {A B C} (f : A -> B -> C) (m n : nat) la lb out :
  zip_broadcast f m n la lb = Some out ->
  forall c, In c out -> exists a b, In a la /\ In b lb /\ c = f a b.
Proof.
  unfold zip_broadcast. destruct (broadcast_dim m n) as [ k | ];
    [ | discriminate ].
  intros H c Hc. inv H. apply in_map_iff in Hc as ([a b] & <- & Hp).
  exists a, b. simpl.
  assert (S : forall X (l : list X) x k', In x (stretch k' l) -> In x l).
  { intros X l x k'. destruct l as [ | y [ | z l' ] ]; simpl; auto.
    intros Hr. apply repeat_spec in Hr. now left. }
  split; [ | split; [ | reflexivity ] ].
  - apply in_combine_l in Hp. destruct (m =? k)%nat; eauto.
  - apply in_combine_r in Hp. destruct (n =? k)%nat; eauto.
Qed.

(** [avg_pool] returns rows of [dim] components. *)
Lemma avg_pool_wf (dim : nat) x mask out :
  avg_pool dim x mask = Ok out -> ncols out = dim /\ wf out.
Proof.
  unfold avg_pool. intros H. bind_ok H. bind_ok H. bind_ok H. inv H.
  split; [ reflexivity | ]. unfold wf; simpl.
  unfold broadcast in E1.
  destruct (zip_broadcast _ _ _ _ _) as [ o | ] eqn:Z in E1;
    [ | discriminate ].
  inv E1. apply Forall_forall. intros r Hr.
  destruct (zip_broadcast_In _ _ _ _ _ Z r Hr) as (s & d & Hs & _ & ->).
  rewrite length_map. apply in_map_iff in Hs as (p & <- & _).
  unfold sum_axis1. now rewrite length_map, length_seq.
Qed.

Lemma div_rows_wf (a : array2 f32) (norms : list f32) :
  wf a -> wf (div_rows a norms).
Proof.
  unfold wf, div_rows; simpl. rewrite !Forall_forall. intros H r Hr.
  apply in_map_iff in Hr as ([r0 n0] & <- & Hp). rewrite length_map.
  apply in_combine_l in Hp. now apply H.
Qed.

Lemma chunks64_length {A} (n : nat) (l : list A) : length (chunks64 n l) = n.
Proof. revert l. induction n; simpl; intros; [ reflexivity | now rewrite IHn ]. Qed.

Lemma finalize_wf (m : bool) (a : array2 f32) :
  wf a ->
  wf (finalize m a)
  /\ nrows (finalize m a) = nrows a
  /\ ncols (finalize m a) = if m then (ncols a / 64)%nat else ncols a.
Proof.
  destruct m; simpl; intros H; [ | auto ].
  unfold binarize_and_packbits, wf, nrows; simpl.
  split; [ | split; [ now rewrite length_map | reflexivity ] ].
  apply Forall_forall. intros r Hr. apply in_map_iff in Hr as (r0 & <- & _).
  now rewrite length_map, chunks64_length.
Qed.

(** What a batch looks like before it is stored. *)
Lemma embed_batch_wf (self : WordLlamaInference.t) chunk norm b :
  embed_batch self chunk norm = Ok b ->
  wf b
  /\ ncols b = if binary self then (ncols (embedding self) / 64)%nat
               else ncols (embedding self).
Proof.
  unfold embed_batch. intros H. bind_ok H.
  destruct a as [ | enc encs ]; [ discriminate | ].
  bind_ok H. bind_ok H. bind_ok H. bind_ok H. inv H.
  apply avg_pool_wf in E3 as [Hc Hw].
  assert (W : wf (if norm then div_rows a2 (linalg_norm a2) else a2))
    by (destruct norm; [ now apply div_rows_wf | exact Hw ]).
  destruct (finalize_wf (binary self) W) as (F1 & _ & F3).
  split; [ exact F1 | ]. rewrite F3.
  destruct norm; simpl; now rewrite Hc.
Qed.

Lemma stretch_In {A} (k : nat) (l : list A) (x : A) :
  In x (stretch k l) -> In x l.
Proof.
  destruct l as [ | y [ | z l' ] ]; simpl; auto.
  intros Hr. apply repeat_spec in Hr. now left.
Qed.

Lemma In_firstn {A} (n : nat) (l : list A) (x : A) :
  In x (firstn n l) -> In x l.
Proof.
  intros H. rewrite <- (firstn_skipn n l). apply in_or_app. now left.
Qed.

Lemma In_skipn {A} (n : nat) (l : list A) (x : A) :
  In x (skipn n l) -> In x l.
Proof.
  intros H. rewrite <- (firstn_skipn n l). apply in_or_app. now right.
Qed.

Lemma assign_rows_wf {T} (dst src d' : array2 T) (i : nat) :
  wf dst -> wf src -> assign_rows dst i src = Ok d' -> wf d'.
Proof.
  unfold assign_rows, wf.
  set (lo := Nat.min i _). set (hi := Nat.min (i + _) _).
  destruct (_ && _) eqn:C; [ | discriminate ].
  intros Hd Hs H; inv H; simpl.
  apply andb_prop in C as [_ C].
  rewrite !Forall_app. split; [ | split ].
  - rewrite Forall_forall in *. intros r Hr. apply Hd.
    eapply In_firstn; eauto.
  - apply Forall_forall. intros r Hr.
    assert (S : forall r0,
               In r0 (if (nrows src =? hi - lo)%nat then rows src
                      else stretch (hi - lo) (rows src)) ->
               length r0 = ncols src).
    { intros r0 H0. rewrite Forall_forall in Hs. apply Hs.
      destruct (nrows src =? hi - lo)%nat; [ exact H0 | ].
      eapply stretch_In; eauto. }
    destruct (ncols src =? ncols dst)%nat eqn:E.
    + apply Nat.eqb_eq in E. rewrite <- E. now apply S.
    + simpl in C. apply Nat.eqb_eq in C.
      apply in_map_iff in Hr as (r0 & <- & H0).
      apply stretch_length. rewrite (S r0 H0). exact C.
  - rewrite Forall_forall in *. intros r Hr. apply Hd.
    eapply In_skipn; eauto.
Qed.

Lemma embed_wf (self : WordLlamaInference.t) texts norm batch_size out :
  embed self texts norm batch_size = Ok out -> wf out.
Proof.
  intros H. unfold embed in H. bind_ok H. bind_ok H.
  apply (foldM_invariant (fun s : array2 (elt (binary self)) => wf s)) in H.
  - exact H.
  - intros s i s' Hs Hf. bind_ok Hf.
    apply embed_batch_wf in E1 as [Wb _].
    exact (assign_rows_wf _ Hs Wb Hf).
  - unfold wf, Np.empty; simpl. apply Forall_forall. intros r Hr.
    apply repeat_spec in Hr. subst. apply repeat_length.
Qed.

(** X1.  Whenever [embed] returns, in either mode and for every batch size,
    the array is rectangular: it has one row per text and every row has
    exactly as many entries as the embedding table has columns. *)
Theorem embed_returns_rectangular (self : WordLlamaInference.t)
  (texts : obj) (norm : bool) (batch_size : nat)
  (out : array2 (elt (binary self))) :
  embed self texts norm batch_size = Ok out ->
  exists l,
    check_texts texts = Ok l
    /\ nrows out = length l
    /\ ncols out = ncols (embedding self)
    /\ Forall (fun r => length r = ncols (embedding self)) (rows out).
Proof.
  intros H. destruct (embed_shape _ _ _ _ H) as (l & Hl & Hs).
  unfold shape in Hs. injection Hs as Hn Hc.
  exists l. repeat split; trivial. rewrite <- Hc.
  exact (embed_wf _ _ _ _ H).
Qed.

(** X2.  On the empty list [embed] returns the array without rows, of shape
    [(0, dim)], in either mode and without consulting the tokenizer; only a
    batch size of zero makes it raise, in [range]. *)
Theorem embed_empty_list (self : WordLlamaInference.t) (norm : bool)
  (batch_size : nat) :
  embed self (PyList []) norm batch_size
  = if (batch_size =? 0)%nat then Raise ValueError
    else Ok {| ncols := ncols (embedding self); rows := [] |}.
Proof.
  unfold embed, check_texts, Py.range; simpl.
  destruct batch_size as [ | b ]; [ reflexivity | ].
  assert (E : ((S b - 1) / S b = 0)%nat) by (apply Nat.div_small; lia).
  rewrite E. reflexivity.
Qed.

(** ** The batches of [embed] *)

Lemma range_starts (n step : nat) :
  (0 < step)%nat ->
  exists c,
    Py.range 0 n step = Ok (map (fun k => (0 + k * step)%nat) (seq 0 c))
    /\ (n <= c * step)%nat
    /\ ((0 < c)%nat -> ((c - 1) * step < n)%nat).
Proof.
  intros Hs. exists ((n - 0 + step - 1) / step)%nat.
  unfold Py.range. destruct step as [ | s ]; [ lia | ].
  split; [ reflexivity | ].
  pose proof (Nat.div_mod_eq (n - 0 + S s - 1) (S s)) as E.
  pose proof (Nat.mod_upper_bound (n - 0 + S s - 1) (S s)) as U.
  set (c := ((n - 0 + S s - 1) / S s)%nat) in *.
  set (r := ((n - 0 + S s - 1) mod S s)%nat) in *.
  split; [ nia | ]. intros Hc. nia.
Qed.

Lemma map_seq_shift {B} (g : nat -> B) (c : nat) :
  map g (seq 1 c) = map (fun k => g (S k)) (seq 0 c).
Proof. now rewrite <- seq_shift, map_map. Qed.

Lemma chunks_concat {A} (l : list A) (step c : nat) :
  forall i,
    (length l <= i + c * step)%nat ->
    concat (map (fun s => Py.slice l s (s + step))
                (map (fun k => (i + k * step)%nat) (seq 0 c)))
    = skipn i l.
Proof.
  induction c as [ | c IH ]; intros i H; simpl.
  - symmetry. apply skipn_all2. lia.
  - rewrite map_seq_shift.
    rewrite (map_ext (fun k => (i + S k * step)%nat)
                     (fun k => (i + step + k * step)%nat)) by (intros; lia).
    rewrite IH by lia.
    unfold Py.slice. rewrite Nat.add_0_r.
    replace (i + step - i)%nat with step by lia.
    replace (i + step)%nat with (step + i)%nat by lia.
    rewrite <- skipn_skipn. apply firstn_skipn.
Qed.

(** X4.  The loop of [embed] cuts the texts into consecutive batches that
    put together give back the list of texts, in order; no batch is empty
    and none is longer than [batch_size]. *)
Theorem embed_batches_partition {A} (texts : list A) (batch_size : nat)
  (starts : list nat) :
  Py.range 0 (length texts) batch_size = Ok starts ->
  concat (map (fun i => Py.slice texts i (i + batch_size)) starts) = texts
  /\ Forall (fun i =>
               (0 < length (Py.slice texts i (i + batch_size))
                <= batch_size)%nat) starts.
Proof.
  intros H.
  assert (Hs : (0 < batch_size)%nat)
    by (destruct batch_size; [ discriminate | lia ]).
  destruct (range_starts (length texts) Hs) as (c & Hr & Hc & Hl).
  rewrite Hr in H. inv H. split.
  - assert (Hc0 : (length texts <= 0 + c * batch_size)%nat) by lia.
    exact (chunks_concat texts batch_size c 0 Hc0).
  - apply Forall_forall. intros i Hi.
    apply in_map_iff in Hi as (k & <- & Hk). apply in_seq in Hk.
    unfold Py.slice. rewrite length_firstn, length_skipn.
    assert (k * batch_size <= (c - 1) * batch_size)%nat by nia.
    assert (0 < c)%nat by lia. specialize (Hl H0). lia.
Qed.

Lemma assign_rows_exact {T} (dst src d' : array2 T) (i : nat) :
  ncols src = ncols dst -> (i + nrows src <= nrows dst)%nat ->
  assign_rows dst i src = Ok d' ->
  rows d' = firstn i (rows dst) ++ rows src ++ skipn (i + nrows src) (rows dst).
Proof.
  intros Hc Hn. unfold assign_rows.
  replace (Nat.min i (nrows dst)) with i by lia.
  replace (Nat.min (i + nrows src) (nrows dst)) with (i + nrows src)%nat
    by lia.
  replace (i + nrows src - i)%nat with (nrows src) by lia.
  rewrite Hc, !Nat.eqb_refl. simpl. intros H; now inv H.
Qed.

Lemma avg_pool_nrows (dim n : nat) x mask out :
  nrows x = n -> nrows mask = n ->
  avg_pool dim x mask = Ok out -> nrows out = n.
Proof.
  intros Hx Hm. unfold avg_pool. rewrite Hx, Hm. intros H.
  bind_ok H. rewrite zip_broadcast_same in H. simpl in H.
  rewrite !length_map, length_combine in H.
  unfold nrows in Hx, Hm. rewrite Hx, Hm, Nat.min_id in H.
  rewrite zip_broadcast_same in H. simpl in H. inv H.
  unfold nrows; simpl.
  rewrite !length_map, !length_combine, !length_map, length_combine. lia.
Qed.

Lemma take_nrows {T} (table : array2 T) ids x :
  take table ids = Ok x -> nrows x = nrows ids.
Proof.
  unfold take. intros H. bind_ok H. inv H. unfold nrows; simpl.
  eapply mapM_length; eauto.
Qed.

(** With one encoding per text, a batch has one row per text of its chunk. *)
Lemma embed_batch_nrows (self : WordLlamaInference.t) chunk norm b :
  one_encoding_per_text self ->
  embed_batch self chunk norm = Ok b -> nrows b = length chunk.
Proof.
  intros Hone. unfold embed_batch, tokenize. intros H. bind_ok H.
  apply Hone in E.
  destruct a as [ | enc encs ]; [ discriminate | ].
  remember (enc :: encs) as L. clear HeqL.
  bind_ok H. bind_ok H. bind_ok H. bind_ok H. inv H.
  unfold array_int32 in E0.
  destruct (forallb _ _) in E0; [ | discriminate ].
  apply array_ok in E0 as [R0 _]. unfold array_float32 in E1.
  apply array_ok in E1 as [R1 _].
  apply take_nrows in E2.
  assert (N1 : nrows a1 = length L)
    by (rewrite E2; unfold nrows, clip; simpl;
        now rewrite length_map, R0, length_map).
  assert (N2 : nrows a0 = length L)
    by (unfold nrows; now rewrite R1, !length_map).
  apply (@avg_pool_nrows _ _ a1 a0 a2 N1 N2) in E3.
  assert (N3 : nrows (if norm then div_rows a2 (linalg_norm a2) else a2)
               = length L).
  { destruct norm; [ | exact E3 ].
    unfold div_rows, linalg_norm, nrows in *; simpl.
    rewrite length_map, length_combine, length_map. lia. }
  assert (N4 : forall m (y : array2 f32), nrows (finalize m y) = nrows y).
  { intros [ | ] y; [ | reflexivity ].
    unfold finalize, binarize_and_packbits, nrows; simpl.
    now rewrite length_map. }
  rewrite N4, N3. exact E.
Qed.

Section Fill.
Variables (T : Type) (n dim step : nat) (batch : nat -> result (array2 T)).
Hypothesis step_pos : (0 < step)%nat.
Hypothesis batch_shape :
  forall i b, (i < n)%nat -> batch i = Ok b ->
              ncols b = dim /\ nrows b = Nat.min step (n - i).

Let store (d : array2 T) (i : nat) : result (array2 T) :=
  b <- batch i ;; assign_rows d i b.

(** Filling from row [i] on with [c] batches leaves the rows before [i] and
    writes the batches one after the other. *)
Lemma fill_from (c : nat) :
  forall i dst out,
    (i <= n)%nat -> (n <= i + c * step)%nat ->
    ((0 < c)%nat -> (i + (c - 1) * step < n)%nat) ->
    shape dst = (n, dim) ->
    foldM store (map (fun k => (i + k * step)%nat) (seq 0 c)) dst = Ok out ->
    exists batches,
      mapM batch (map (fun k => (i + k * step)%nat) (seq 0 c)) = Ok batches
      /\ rows out = firstn i (rows dst) ++ concat (map (@rows T) batches).
Proof.
  induction c as [ | c IH ]; intros i dst out Hi Hn Hl Hs H.
  - simpl in *. inv H. exists []. split; [ reflexivity | ].
    unfold shape, nrows in Hs. injection Hs as Hr _.
    simpl. rewrite app_nil_r. symmetry. apply firstn_all2. lia.
  - simpl seq in *. simpl map in *. rewrite Nat.add_0_r in *.
    simpl foldM in H. unfold store at 1 in H.
    destruct (batch i) as [ b | ] eqn:B; simpl in H; [ | discriminate ].
    destruct (assign_rows dst i b) as [ d1 | ] eqn:As; [ | discriminate ].
    assert (Hin : (i < n)%nat) by (specialize (Hl ltac:(lia)); lia).
    destruct (batch_shape Hin B) as [Bc Bn].
    unfold shape in Hs. injection Hs as Hr Hd.
    assert (Ex := As). apply assign_rows_exact in Ex; [ | congruence | lia ].
    apply assign_rows_shape in As.
    rewrite map_seq_shift in *.
    rewrite (map_ext (fun k => (i + S k * step)%nat)
                     (fun k => (i + step + k * step)%nat)) in *
      by (intros; lia).
    destruct c as [ | c' ].
    + simpl in *. inv H. exists [b]. split; [ now rewrite B | ].
      simpl. rewrite app_nil_r, Ex.
      rewrite (skipn_all2 (rows dst)); [ now rewrite app_nil_r | ].
      unfold nrows in *. lia.
    + destruct (IH (i + step)%nat d1 out) as (bs & Hm & Ho);
        try (simpl in *; lia).
      * rewrite As. unfold shape. congruence.
      * exact H.
      * exists (b :: bs).
        split; [ cbn [mapM]; rewrite B; cbn [Py.bind]; now rewrite Hm | ].
        assert (Bs : nrows b = step) by (simpl in *; lia).
        assert (La : length (firstn i (rows dst) ++ rows b) = (i + step)%nat)
          by (rewrite length_app, length_firstn; unfold nrows in *; lia).
        assert (F : firstn (i + step)
                      (firstn i (rows dst) ++ rows b
                       ++ skipn (i + nrows b) (rows dst))
                    = firstn i (rows dst) ++ rows b).
        { rewrite app_assoc, firstn_app, La, Nat.sub_diag. simpl.
          rewrite app_nil_r. apply firstn_all2. lia. }
        rewrite Ho, Ex, F. simpl. now rewrite <- app_assoc.
Qed.
End Fill.

(** X5.  In dense mode, with a tokenizer that returns one encoding per text,
    the array that [embed] returns is the batches written one below the
    other: its rows are the rows of the first batch, then those of the
    second, and so on to the last, possibly shorter, batch; no row of the
    preallocated array is left as allocated or written twice. *)
Theorem embed_dense_concatenates_batches (self : WordLlamaInference.t)
  (texts : obj) (norm : bool) (batch_size : nat)
  (out : array2 (elt (binary self))) :
  binary self = false ->
  one_encoding_per_text self ->
  embed self texts norm batch_size = Ok out ->
  exists l starts batches,
    check_texts texts = Ok l
    /\ Py.range 0 (length l) batch_size = Ok starts
    /\ mapM (fun i => embed_batch self (Py.slice l i (i + batch_size)) norm)
            starts = Ok batches
    /\ rows out = concat (map (fun b => rows b) batches).
Proof.
  intros Hb Hone H. unfold embed in H. bind_ok H. bind_ok H.
  rename a into l, a0 into starts.
  assert (Hs : (0 < batch_size)%nat)
    by (destruct batch_size; [ discriminate | lia ]).
  destruct (range_starts (length l) Hs) as (c & Hr & Hc & Hl).
  rewrite Hr in E0. inv E0.
  destruct (@fill_from (elt (binary self)) (length l)
              (ncols (embedding self)) batch_size
              (fun i => embed_batch self (Py.slice l i (i + batch_size)) norm)
              Hs) with (c := c) (i := 0%nat)
              (dst := Np.empty (junk (binary self)) (length l)
                               (ncols (embedding self)))
              (out := out) as (batches & Hm & Ho).
  - intros i b Hi Hbat. split.
    + apply embed_batch_wf in Hbat as [_ Hcol]. rewrite Hcol, Hb. reflexivity.
    + apply (embed_batch_nrows _ _ Hone) in Hbat. rewrite Hbat.
      unfold Py.slice. rewrite length_firstn, length_skipn. lia.
  - lia.
  - lia.
  - intros Hc0. specialize (Hl Hc0). lia.
  - apply empty_shape.
  - exact H.
  - exists l, (map (fun k => (0 + k * batch_size)%nat) (seq 0 c)), batches.
    repeat split; trivial.
Qed.

(** ** Argument checks of [embed] *)

(** X3.  Whatever the engine and the batch size, [embed] raises [TypeError]
    on a value that is neither a string nor a list, and on a non-empty list
    whose first element is not a string; the tokenizer is not consulted. *)
Theorem embed_rejects_by_type (self : WordLlamaInference.t) (texts : obj)
  (norm : bool) (batch_size : nat) :
  match texts with
  | PyStr _ => False
  | PyList [] => False
  | PyList (x :: _) => is_str x = false
  | _ => True
  end ->
  check_texts texts = Raise TypeError
  /\ embed self texts norm batch_size = Raise TypeError.
Proof.
  unfold embed, check_texts.
  destruct texts as [ | z | s | [ | x l ] ]; simpl; try tauto.
  intros ->. auto.
Qed.

(** ** Pooling and normalization *)

(** X6.  Whatever a row of the mask holds, the divisor that [avg_pool] forms
    from it, [np.maximum(sum, 1.0)], is NaN or at least 1.0: it is never
    zero, so the division never is one by zero. *)
Theorem avg_pool_divisor_floor (mask_row : list f32) :
  let divisor := F32.maximum (F32.sum mask_row) F32.one in
  (F32.is_nan divisor = true \/ F32.leb F32.one divisor = true)
  /\ F32.is_zero divisor = false.
Proof.
  intros divisor. subst divisor. unfold F32.maximum.
  generalize (F32.sum mask_row). intros s.
  destruct (F32.leb F32.one s) eqn:L; simpl.
  - split; [ now right | ]. destruct s; try reflexivity. discriminate L.
  - destruct (F32.is_nan s) eqn:N.
    + split; [ now left | ]. now destruct s.
    + split; [ right | ]; reflexivity.
Qed.

Lemma nth_error_combine_map {A B} (g : A -> B) (l : list A) (i : nat) (a : A) :
  nth_error l i = Some a ->
  nth_error (combine l (map g l)) i = Some (a, g a).
Proof.
  intros H. apply nth_error_combine; [ exact H | ].
  now rewrite nth_error_map, H.
Qed.

(** X7.  [normalize_embeddings] turns a row of zeros into a row of NaN: the
    norm of the row is zero and every component is divided by it.  The other
    rows do not matter. *)
Theorem normalize_zero_row_is_nan (embeddings : array2 f32) (i : nat)
  (r : list f32) :
  nth_error (rows embeddings) i = Some r ->
  Forall (fun v => F32.is_zero v = true) r ->
  nth_error (rows (normalize_embeddings embeddings)) i
  = Some (map (fun _ => S754_nan) r).
Proof.
  intros Hr Hz. unfold normalize_embeddings, div_rows, linalg_norm; simpl.
  rewrite nth_error_map, (nth_error_combine_map _ _ _ Hr). simpl. f_equal.
  assert (Hn : F32.is_zero
                 (F32.sqrt (F32.sum (map (fun x => F32.mul x x) r))) = true).
  { assert (Hs : F32.is_zero (F32.sum (map (fun x => F32.mul x x) r)) = true).
    { apply sum_zero_is_zero, Forall_forall. intros v Hv.
      apply in_map_iff in Hv as (x & <- & Hx).
      rewrite Forall_forall in Hz. specialize (Hz x Hx).
      destruct x; try discriminate. reflexivity. }
    destruct (F32.sum _); try discriminate. reflexivity. }
  destruct (F32.sqrt _) as [ sn | | | ]; try discriminate.
  apply map_ext_in. intros v Hv. rewrite Forall_forall in Hz.
  specialize (Hz v Hv). destruct v; try discriminate. reflexivity.
Qed.

(** ** Cosine similarity *)


(** X9.  In dense mode [vector_similarity] raises [ValueError] on two
    batches with different numbers of rows, neither of them one: the
    comparison of the operands does not broadcast. *)
Theorem vector_similarity_dense_rows_mismatch (self : WordLlamaInference.t)
  (a b : array2 (elt (binary self))) :
  binary self = false ->
  nrows a <> nrows b -> nrows a <> 1%nat -> nrows b <> 1%nat ->
  vector_similarity self (Arr2 a) (Arr2 b) = Raise ValueError.
Proof.
  destruct self as [m emb tok]; simpl in *. intros ->. simpl in *.
  intros Hab Ha Hb.
  unfold vector_similarity; simpl. unfold cosine_similarity, all_equal.
  destruct (broadcast_dim (ncols a) (ncols b)); [ | reflexivity ].
  unfold zip_broadcast, broadcast_dim.
  apply Nat.eqb_neq in Hab, Ha, Hb. now rewrite Hab, Ha, Hb.
Qed.

Lemma normalize_ncols (a : array2 f32) :
  ncols (normalize_embeddings a) = ncols a.
Proof. reflexivity. Qed.

Lemma dense_same_shape (self : WordLlamaInference.t)
  (a b : array2 (elt (binary self))) :
  binary self = false ->
  shape a = shape b ->
  exists s,
    vector_similarity self (Arr2 a) (Arr2 b) = Ok s
    /\ shape s = (nrows a, nrows b)
    /\ Forall (fun r => length r = nrows b) (rows s).
Proof.
  destruct self as [m emb tok]; simpl in *. intros ->. simpl in *.
  unfold shape. intros Hs. injection Hs as Hn Hc.
  unfold vector_similarity; simpl. unfold cosine_similarity, all_equal.
  rewrite Hn, Hc. unfold broadcast_dim at 1. rewrite Nat.eqb_refl.
  rewrite zip_broadcast_same. cbn [Py.bind].
  assert (G : forall x y : array2 f32,
             ncols x = ncols y -> exists s,
               matmul_T (normalize_embeddings x) (normalize_embeddings y)
               = Ok s
               /\ shape s = (nrows x, nrows y)
               /\ Forall (fun r => length r = nrows y) (rows s)).
  { intros x y Hxy.
    destruct (matmul_T (normalize_embeddings x) (normalize_embeddings y))
      as [ s | e ] eqn:M.
    - exists s. split; [ reflexivity | ].
      apply matmul_T_shape in M. now rewrite !normalize_nrows in M.
    - unfold matmul_T in M. rewrite !normalize_ncols, Hxy, Nat.eqb_refl in M.
      discriminate. }
  destruct (forallb _ _).
  - unfold cosine_shared.
    pose proof (G a a eq_refl) as (s & Hs & Hsh & Hf).
    exists s. rewrite <- Hn. auto.
  - unfold cosine_general. destruct (G a b Hc) as (s & Hs & Hsh & Hf).
    exists s. rewrite <- Hn at 1. auto.
Qed.

(** X10.  In dense mode [vector_similarity] returns on two batches of the
    same shape, and the score matrix is square: as many rows and as many
    entries per row as the batches have rows. *)
Theorem vector_similarity_dense_same_shape (self : WordLlamaInference.t)
  (a b : array2 (elt (binary self))) :
  binary self = false ->
  shape a = shape b ->
  exists s,
    vector_similarity self (Arr2 a) (Arr2 b) = Ok s
    /\ shape s = (nrows a, nrows b)
    /\ Forall (fun r => length r = nrows b) (rows s).
Proof. apply dense_same_shape. Qed.

(** ** Ranking, filtering, top-k *)

Lemma dense_no_docs_shared (self : WordLlamaInference.t) q d s :
  binary self = false -> nrows d = 0%nat ->
  vector_similarity self (Arr1 q) (Arr2 d) = Ok s -> ncols s = 1%nat.
Proof.
  destruct self as [m emb tok]; simpl in *. intros ->. simpl in *.
  intros Hd. unfold vector_similarity; simpl.
  unfold cosine_similarity, all_equal.
  destruct (broadcast_dim _ _); [ | discriminate ].
  unfold zip_broadcast. rewrite Hd. simpl.
  unfold cosine_shared. intros H. apply matmul_T_shape in H as [Hs _].
  unfold shape in Hs. injection Hs as _ Hc. now rewrite normalize_nrows in Hc.
Qed.

(** What [rank] and [filter] have in hand when the squeezed scores are a
    1-d array: a list of documents and one score for each. *)
Lemma query_scores (self : WordLlamaInference.t) (docs : obj) de q0 s
  scores ds :
  embed self docs false 32 = Ok de ->
  vector_similarity self (Arr1 q0) (Arr2 de) = Ok s ->
  squeeze s = Arr1 scores ->
  Py.iter docs = Ok ds ->
  docs = PyList ds /\ length scores = length ds
  /\ length ds <> 1%nat
  /\ (binary self = false -> length ds <> 0%nat).
Proof.
  intros He Hv Hq Hi.
  destruct (embed_shape _ _ _ _ He) as (l & Hl & Hsh).
  unfold shape in Hsh. injection Hsh as Hn _.
  pose proof Hv as Hv'.
  apply vector_similarity_row in Hv as (r & Hr & Hlen & Hc).
  pose proof (squeeze_row s Hr Hlen) as Q. rewrite Hq in Q.
  destruct Q as [-> Hne]. destruct Hc as [Hc | Hc]; [ | contradiction ].
  destruct docs as [ | z | str | ds' ]; try discriminate.
  - unfold check_texts in Hl; simpl in Hl. inv Hl. simpl in Hn. congruence.
  - apply check_texts_list in Hl. subst l. simpl in Hi. inv Hi.
    repeat split; try congruence.
    intros Hb H0.
    assert (Hd : nrows de = 0%nat) by congruence.
    pose proof (@dense_no_docs_shared self q0 de s Hb Hd Hv'). contradiction.
Qed.

Lemma rank_inside (self : WordLlamaInference.t) (query docs : obj) out :
  rank self query docs = Ok out ->
  exists ds scores,
    docs = PyList ds /\ length scores = length ds
    /\ length ds <> 1%nat
    /\ (binary self = false -> length ds <> 0%nat)
    /\ out = Py.sort F32.ltb snd true (combine ds scores).
Proof.
  unfold rank. intros H.
  bind_ok H. bind_ok H. bind_ok H. bind_ok H. bind_ok H. bind_ok H.
  destruct (squeeze a3) as [ x | v | a' ] eqn:Q; try discriminate. inv H.
  destruct (@query_scores self docs a1 a2 a3 v a4 E1 E3 Q E4)
    as (Hd & Hl & H1 & H0).
  exists a4, v. auto.
Qed.


Lemma combine_fst {A B} (l : list A) (l' : list B) :
  length l' = length l -> map fst (combine l l') = l.
Proof.
  revert l'. induction l as [ | a l IH ]; intros [ | b l' ]; simpl;
    try discriminate; intros H; [ reflexivity | ].
  f_equal. apply IH. lia.
Qed.

(** X11.  [rank] never returns a list of one pair, and in dense mode it never
    returns the empty list either: there it only returns for two or more
    documents. *)
Theorem rank_returns_not_one (self : WordLlamaInference.t)
  (query docs : obj) (out : list (obj * f32)) :
  rank self query docs = Ok out ->
  length out <> 1%nat /\ (binary self = false -> (2 <= length out)%nat).
Proof.
  intros H. destruct (rank_inside _ _ _ H) as (ds & sc & _ & Hl & H1 & H0 & ->).
  rewrite <- (Permutation_length (sort_perm F32.ltb snd true (combine ds sc))).
  rewrite length_combine, Hl, Nat.min_id.
  split; [ exact H1 | ]. intros Hb. specialize (H0 Hb). lia.
Qed.

(** X12.  When [rank] returns, with or without NaN among the scores, the
    documents of the result are the input documents rearranged: as many, and
    each as often as in the input. *)
Theorem rank_permutes_docs (self : WordLlamaInference.t)
  (query docs : obj) (out : list (obj * f32)) :
  rank self query docs = Ok out ->
  exists ds, docs = PyList ds
             /\ Permutation ds (map fst out)
             /\ length out = length ds.
Proof.
  intros H. destruct (rank_inside _ _ _ H) as (ds & sc & Hd & Hl & _ & _ & ->).
  exists ds. split; [ exact Hd | ].
  pose proof (sort_perm F32.ltb snd true (combine ds sc)) as P.
  split.
  - rewrite <- (Permutation_map fst P). now rewrite combine_fst.
  - rewrite <- (Permutation_length P), length_combine. lia.
Qed.



(** X14.  [topk] raises [AssertionError] as soon as the list of candidates
    has no more than [k] elements, exactly [k] included, before anything is
    embedded. *)
Theorem topk_needs_more_than_k (self : WordLlamaInference.t) (query : obj)
  (candidates : list obj) (k : Z) :
  Z.of_nat (length candidates) <= k ->
  topk self query (PyList candidates) k = Raise AssertionError.
Proof.
  intros H. unfold topk; simpl.
  destruct (Z.ltb_spec k (Z.of_nat (length candidates))); [ lia | reflexivity ].
Qed.

Lemma StronglySorted_split {A} (R : A -> A -> Prop) (l : list A) (n : nat) :
  StronglySorted R l ->
  forall p q, In p (firstn n l) -> In q (skipn n l) -> R p q.
Proof.
  intros H. revert n. induction H as [ | a l Hs IH Ha ]; intros n p q Hp Hq.
  - now rewrite firstn_nil in Hp.
  - destruct n as [ | n ]; simpl in *; [ contradiction | ].
    destruct Hp as [<- | Hp].
    + rewrite Forall_forall in Ha. apply Ha. eapply In_skipn; eauto.
    + eapply IH; eauto.
Qed.

(** X15.  When [rank] returns [ranked] without NaN among the scores and
    [0 <= k < len(candidates)], [topk] returns the documents of the first [k]
    pairs of [ranked]: exactly [k] documents, none of them with a score
    smaller than the score of a document that is left out. *)
Theorem topk_returns_k_best (self : WordLlamaInference.t)
  (query candidates : obj) (k : Z) (ranked : list (obj * f32)) :
  rank self query candidates = Ok ranked ->
  0 <= k < Z.of_nat (length ranked) ->
  Forall (fun p => not_nan (snd p)) ranked ->
  let top := firstn (Z.to_nat k) ranked in
  topk self query candidates k = Ok (map fst top)
  /\ length (map fst top) = Z.to_nat k
  /\ forall p q, In p top -> In q (skipn (Z.to_nat k) ranked) ->
                 F32.ltb (snd p) (snd q) = false.
Proof.
  intros H Hk Hnan top.
  destruct (rank_inside _ _ _ H) as (ds & sc & Hd & Hl & _ & _ & Ho).
  pose proof (sort_perm F32.ltb snd true (combine ds sc)) as P.
  rewrite <- Ho in P.
  assert (Hlen : length ranked = length ds)
    by (rewrite <- (Permutation_length P), length_combine; lia).
  split; [ | split ].
  - unfold topk. subst candidates. simpl. rewrite <- Hlen.
    destruct (Z.ltb_spec k (Z.of_nat (length ranked))); [ | lia ]. simpl.
    rewrite H. simpl. unfold Py.slice_to.
    destruct (Z.leb_spec 0 k); [ reflexivity | lia ].
  - subst top. rewrite length_map, length_firstn. lia.
  - assert (Hin : Forall (fun p => not_nan (snd p)) (combine ds sc))
      by (apply (Permutation_Forall (Permutation_sym P)); exact Hnan).
    destruct (@sort_reverse_spec _ _ F32.ltb F32.eqb snd not_nan
                ltb_asym ltb_negtrans eqb_incomparable
                (combine ds sc) Hin) as (S1 & _ & _).
    rewrite <- Ho in S1. subst top.
    apply (StronglySorted_split (Z.to_nat k) S1).
Qed.

(** ** Similarity of two texts *)

Lemma embed_str_row (self : WordLlamaInference.t) (str : string) norm
  batch_size e :
  embed self (PyStr str) norm batch_size = Ok e ->
  exists r, rows e = [r] /\ length r = ncols (embedding self)
            /\ ncols e = ncols (embedding self).
Proof.
  intros H. pose proof (embed_wf _ _ _ _ H) as W.
  destruct (embed_shape _ _ _ _ H) as (l & Hl & Hs).
  unfold check_texts in Hl; simpl in Hl. inv Hl.
  unfold shape, nrows in Hs. injection Hs as Hn Hc.
  destruct (rows e) as [ | r [ | ] ] eqn:R; try discriminate.
  exists r. unfold wf in W. rewrite R in W. inv W.
  repeat split; congruence.
Qed.

(** X16.  In dense mode [similarity] of two strings returns a score whenever
    both strings can be embedded: the comparison, the product and [item()]
    cannot fail on the two rows. *)
Theorem similarity_dense_returns (self : WordLlamaInference.t)
  (s1 s2 : string) e1 e2 :
  binary self = false ->
  embed self (PyStr s1) false 32 = Ok e1 ->
  embed self (PyStr s2) false 32 = Ok e2 ->
  exists x, similarity self (PyStr s1) (PyStr s2) = Ok x.
Proof.
  intros Hb H1 H2. unfold similarity. rewrite H1, H2. cbn [Py.bind].
  destruct (embed_str_row _ _ _ _ H1) as (r1 & R1 & L1 & _).
  destruct (embed_str_row _ _ _ _ H2) as (r2 & R2 & L2 & _).
  unfold row0. rewrite R1, R2. cbn [Py.bind].
  destruct (@dense_same_shape self (expand_dims r1) (expand_dims r2) Hb)
    as (s & Hs & Hsh & Hf).
  - unfold shape, expand_dims, nrows; simpl. congruence.
  - assert (Hv : vector_similarity self (Arr1 r1) (Arr1 r2) = Ok s)
      by exact Hs.
    rewrite Hv. cbn [Py.bind]. unfold item.
    unfold shape, nrows in Hsh. simpl in Hsh. injection Hsh as Hn _.
    destruct (rows s) as [ | r [ | ] ]; try discriminate.
    inv Hf. simpl in *. destruct r as [ | x [ | ] ]; try discriminate.
    eauto.
Qed.

Lemma mul_comm (x y : f32) : F32.mul x y = F32.mul y x.
Proof.
  unfold F32.mul, SFmul.
  destruct x as [ sx | sx | | sx mx ex ], y as [ sy | sy | | sy my ey ];
    try reflexivity; rewrite (xorb_comm sx sy); try reflexivity.
  now rewrite (Pos.mul_comm mx my), (Z.add_comm ex ey).
Qed.

Lemma eqb_sym (x y : f32) : F32.eqb x y = F32.eqb y x.
Proof.
  destruct (F32.is_nan x) eqn:Nx; [ destruct x; try discriminate; now destruct y | ].
  destruct (F32.is_nan y) eqn:Ny; [ destruct y; try discriminate; now destruct x | ].
  apply eq_true_iff_eq.
  rewrite (eqb_ord Nx Ny), (eqb_ord Ny Nx). split; congruence.
Qed.

Lemma eqb_same_value (x y : f32) : F32.eqb x y = true -> same_value x y.
Proof.
  intros H.
  assert (Nx : not_nan x) by (destruct x; try reflexivity; discriminate).
  assert (Ny : not_nan y)
    by (destruct y; try reflexivity; destruct x; discriminate).
  apply (eqb_ord Nx Ny) in H. unfold same_value.
  destruct x as [ sx | sx | | sx mx ex ], y as [ sy | sy | | sy my ey ];
    try discriminate; try (right; split; reflexivity);
    try destruct sx; try destruct sy; simpl in H; try discriminate;
    left; inv H; try reflexivity; f_equal; lia.
Qed.

Lemma same_value_square (x y : f32) :
  same_value x y -> F32.mul x x = F32.mul y y.
Proof.
  intros [-> | [Hx Hy]]; [ reflexivity | ].
  destruct x as [ [ | ] | | | ], y as [ [ | ] | | | ]; try discriminate;
    reflexivity.
Qed.

Lemma same_value_div (x y n : f32) :
  same_value x y -> same_value (F32.div x n) (F32.div y n).
Proof.
  intros [-> | [Hx Hy]]; [ now left | ].
  destruct x as [ sx | | | ], y as [ sy | | | ]; try discriminate.
  destruct n as [ sn | sn | | sn mn en ]; unfold same_value; simpl; auto.
Qed.

Lemma all_equal_rows (r1 r2 : list f32) :
  length r1 = length r2 ->
  all_equal (expand_dims r1) (expand_dims r2)
  = Ok (forallb (fun x => x)
          (map (fun p => F32.eqb (fst p) (snd p)) (combine r1 r2)) && true).
Proof.
  intros L. unfold all_equal, expand_dims; simpl. rewrite L.
  unfold broadcast_dim at 1. rewrite Nat.eqb_refl.
  unfold nrows; simpl. rewrite !zip_broadcast_same. reflexivity.
Qed.

Lemma all_eqb_swap (r1 r2 : list f32) :
  forallb (fun x => x) (map (fun p => F32.eqb (fst p) (snd p)) (combine r1 r2))
  = forallb (fun x => x)
      (map (fun p => F32.eqb (fst p) (snd p)) (combine r2 r1)).
Proof.
  revert r2. induction r1 as [ | x r1 IH ]; intros [ | y r2 ]; simpl; auto.
  now rewrite (eqb_sym x y), IH.
Qed.

Lemma all_eqb_same_value (r1 r2 : list f32) :
  length r1 = length r2 ->
  forallb (fun x => x) (map (fun p => F32.eqb (fst p) (snd p)) (combine r1 r2))
  = true ->
  Forall2 same_value r1 r2.
Proof.
  revert r2. induction r1 as [ | x r1 IH ]; intros [ | y r2 ]; simpl;
    try discriminate; intros L H; constructor.
  - apply andb_prop in H as [H _]. now apply eqb_same_value.
  - apply andb_prop in H as [_ H]. apply IH; [ lia | exact H ].
Qed.

Lemma dot_comm (u v : list f32) : dot u v = dot v u.
Proof.
  unfold dot. generalize F32.zero. revert v.
  induction u as [ | x u IH ]; intros [ | y v ] acc; simpl; auto.
  now rewrite (mul_comm x y), IH.
Qed.

Lemma dot_self (u : list f32) :
  dot u u = fold_left F32.add (map (fun x => F32.mul x x) u) F32.zero.
Proof.
  unfold dot. generalize F32.zero.
  induction u as [ | x u IH ]; intros acc; simpl; auto.
Qed.

Lemma same_value_squares (u v : list f32) :
  Forall2 same_value u v ->
  map (fun x => F32.mul x x) u = map (fun x => F32.mul x x) v.
Proof.
  induction 1 as [ | x y u v Hxy _ IH ]; simpl; [ reflexivity | ].
  now rewrite (@same_value_square x y Hxy), IH.
Qed.

(** The normalized single row of [expand_dims r]. *)
Lemma normalize_row (r : list f32) :
  normalize_embeddings (expand_dims r)
  = {| ncols := length r;
       rows := [map (fun x =>
                       F32.div x (F32.sqrt
                                    (F32.sum (map (fun y => F32.mul y y) r))))
                    r] |}.
Proof. reflexivity. Qed.

Lemma cosine_rows_sym (r1 r2 : list f32) :
  length r1 = length r2 ->
  cosine_similarity (expand_dims r1) (expand_dims r2)
  = cosine_similarity (expand_dims r2) (expand_dims r1).
Proof.
  intros L. unfold cosine_similarity.
  rewrite (@all_equal_rows r1 r2 L), (@all_equal_rows r2 r1 (eq_sym L)),
    (all_eqb_swap r2 r1).
  cbn [Py.bind].
  destruct (forallb _ _) eqn:Eq; cbn [andb].
  - apply (@all_eqb_same_value r1 r2 L) in Eq.
    pose proof (@same_value_squares r1 r2 Eq) as Sq.
    unfold cosine_shared. rewrite !normalize_row. unfold matmul_T; simpl.
    rewrite !Nat.eqb_refl. unfold nrows; simpl. do 4 f_equal.
    rewrite !dot_self, Sq. f_equal. apply same_value_squares.
    clear Sq. generalize (F32.sqrt (F32.sum (map (fun y => F32.mul y y) r2))).
    intros n. induction Eq; simpl; constructor; auto.
    now apply same_value_div.
  - unfold cosine_general. rewrite !normalize_row. unfold matmul_T; simpl.
    rewrite L, !Nat.eqb_refl. unfold nrows; simpl. do 4 f_equal.
    apply dot_comm.
Qed.

Lemma embed_row0_length (self : WordLlamaInference.t) texts norm batch_size
  e r :
  embed self texts norm batch_size = Ok e -> row0 e = Ok r ->
  length r = ncols (embedding self).
Proof.
  intros H R. pose proof (embed_wf _ _ _ _ H) as W.
  destruct (embed_shape _ _ _ _ H) as (l & _ & Hs).
  unfold shape in Hs. injection Hs as _ Hc. rewrite <- Hc.
  unfold row0 in R. destruct (rows e) as [ | r0 rs ] eqn:Re; inv R.
  unfold wf in W. rewrite Re in W. now inv W.
Qed.

(** X17.  In dense mode [similarity] is symmetric: when it returns a score
    for two texts, it returns the same score with the texts exchanged. *)
Theorem similarity_dense_symmetric (self : WordLlamaInference.t)
  (text1 text2 : obj) (x : f32) :
  binary self = false ->
  similarity self text1 text2 = Ok x ->
  similarity self text2 text1 = Ok x.
Proof.
  intros Hb H. unfold similarity in *.
  bind_ok H. bind_ok H. bind_ok H. bind_ok H. cbn [Py.bind].
  pose proof (@embed_row0_length self text1 false 32 a a1 E E1) as L1.
  pose proof (@embed_row0_length self text2 false 32 a0 a2 E0 E2) as L2.
  assert (S : vector_similarity self (Arr1 a2) (Arr1 a1)
              = vector_similarity self (Arr1 a1) (Arr1 a2)).
  { clear - Hb L1 L2. destruct self as [m emb tok]; simpl in *. subst m.
    unfold vector_similarity; simpl. apply cosine_rows_sym.
    etransitivity; [ exact L2 | symmetry; exact L1 ]. }
  rewrite E2. cbn [Py.bind]. rewrite E1. cbn [Py.bind].
  rewrite S. exact H.
Qed.

(** ** Clustering and deduplication *)

(** X18.  [cluster] only returns in dense mode, for a list of documents that
    is not empty, starts with a string and has at least [k] elements; what it
    returns is what [kmeans_clustering] returns on the normalized embeddings
    of the documents, one row per document. *)
Theorem cluster_returns_only_if (kwargs labels : Type)
  (kmeans_clustering :
     forall T : Type, array2 T -> Z -> kwargs -> result (labels * f32))
  (self : WordLlamaInference.t) (docs : obj) (k : Z) (options : kwargs)
  (r : labels * f32) :
  cluster kmeans_clustering self docs k options = Ok r ->
  binary self = false
  /\ exists d0 rest embeddings,
       docs = PyList (d0 :: rest)
       /\ is_str d0 = true
       /\ k <= Z.of_nat (length (d0 :: rest))
       /\ embed self docs true 32 = Ok embeddings
       /\ nrows embeddings = length (d0 :: rest)
       /\ kmeans_clustering _ embeddings k options = Ok r.
Proof.
  destruct self as [m table tok]. unfold cluster. cbn [binary].
  destruct m; [ discriminate | ].
  intros H. split; [ reflexivity | ].
  bind_ok H. rename a into emb.
  destruct docs as [ | z | s | l ]; try discriminate. simpl in H.
  destruct (Z.leb_spec k (Z.of_nat (length l))); [ | discriminate ].
  simpl in H. destruct l as [ | d0 rest ]; [ discriminate | ]. simpl in H.
  destruct (is_str d0) eqn:S; [ | discriminate ]. simpl in H.
  exists d0, rest, emb. repeat split; trivial.
  destruct (embed_shape _ _ _ _ E) as (l' & Hl & Hs).
  apply check_texts_list in Hl. subst l'. now inv Hs.
Qed.

Lemma existsb_eqb_In (i : nat) (l : list nat) :
  existsb (Nat.eqb i) l = true <-> In i l.
Proof.
  rewrite existsb_exists. split.
  - intros (j & Hj & E). apply Nat.eqb_eq in E. now subst.
  - intros H. exists i. split; [ exact H | apply Nat.eqb_refl ].
Qed.

Lemma In_filter_indexed {A} (keep : nat -> bool) (l : list A) (d : A) :
  forall start,
    In d (map snd (List.filter (fun p => keep (fst p))
                               (combine (seq start (length l)) l)))
    <-> exists i, nth_error l i = Some d /\ keep (start + i)%nat = true.
Proof.
  induction l as [ | x l IH ]; intros start; simpl.
  - split; [ contradiction | ]. intros ([ | i] & H & _); discriminate.
  - assert (Q : In d (map snd
                        (List.filter (fun p => keep (fst p))
                           (combine (seq (S start) (length l)) l)))
                <-> exists i, nth_error l i = Some d
                              /\ keep (start + S i)%nat = true).
    { rewrite IH. split; intros (i & Hi & Hk); exists i; split; trivial;
        now replace (start + S i)%nat with (S start + i)%nat in * by lia. }
    destruct (keep start) eqn:K; simpl; rewrite Q; split.
    + intros [<- | (i & Hi & Hk)].
      * exists 0%nat. now rewrite Nat.add_0_r.
      * exists (S i). auto.
    + intros ([ | i] & Hi & Hk).
      * left. simpl in Hi. now inv Hi.
      * right. exists i. auto.
    + intros (i & Hi & Hk). exists (S i). auto.
    + intros ([ | i] & Hi & Hk).
      * rewrite Nat.add_0_r in Hk. congruence.
      * exists i. auto.
Qed.

Lemma filter_all {A} (keep : A -> bool) (l : list A) :
  (forall a, keep a = true) -> List.filter keep l = l.
Proof.
  intros H. induction l as [ | a l IH ]; simpl; [ reflexivity | ].
  now rewrite H, IH.
Qed.

Lemma enumerate_snd {A} (l : list A) : map snd (enumerate l) = l.
Proof.
  unfold enumerate. generalize 0%nat.
  induction l as [ | a l IH ]; intros s; simpl; [ reflexivity | ].
  now rewrite IH.
Qed.

(** X19.  When [deduplicate] returns for a list of documents, the embeddings
    were normalized in dense mode only, the batch size passed on is the given
    one or else 500 in binary and 5000 in dense mode, and a document is in
    the result exactly when it stands at an index that [process_batches_cy]
    did not mark; with nothing marked the result is the input list. *)
Theorem deduplicate_drops_marked
  (process_batches :
     forall T : Type, array2 T -> f32 -> nat ->
       (ndarray T -> ndarray T -> result (array2 f32)) -> result (list nat))
  (self : WordLlamaInference.t) (docs : list obj) (threshold : f32)
  (batch_size : option nat) (unique_docs : list obj) :
  deduplicate process_batches self (PyList docs) threshold batch_size
  = Ok unique_docs ->
  exists embeddings marked,
    embed self (PyList docs) (negb (binary self)) 32 = Ok embeddings
    /\ process_batches _ embeddings threshold
         (match batch_size with
          | Some n => n
          | None => if binary self then 500%nat else 5000%nat
          end)
         (vector_similarity self) = Ok marked
    /\ (forall d, In d unique_docs <->
                  exists i, nth_error docs i = Some d /\ ~ In i marked)
    /\ (marked = [] -> unique_docs = docs).
Proof.
  unfold deduplicate. intros H. bind_ok H. bind_ok H. simpl in H. inv H.
  exists a, a0. split; [ reflexivity | ].
  split; [ destruct batch_size; exact E0 | ]. split.
  - intros d. unfold enumerate.
    rewrite (In_filter_indexed
               (fun i => negb (existsb (Nat.eqb i) a0)) docs d 0).
    split; intros (i & Hi & Hk); exists i; split; trivial; simpl in *.
    + intros Hin. apply existsb_eqb_In in Hin. now rewrite Hin in Hk.
    + destruct (existsb (Nat.eqb i) a0) eqn:X; [ | reflexivity ].
      apply existsb_eqb_In in X. contradiction.
  - intros ->. rewrite filter_all by reflexivity. apply enumerate_snd.
Qed.

(** ** Binary mode *)


(** ** The further properties at concrete inputs *)

Lemma toy_one_encoding_per_text : one_encoding_per_text Toy.dense.
Proof.
  intros texts encs H. simpl in H. unfold Toy.encode_batch in H.
  destruct (Toy.strings texts) as [ ss | ] eqn:S; simpl in H;
    [ | discriminate ].
  inv H. rewrite !length_map. clear - S. revert ss S.
  induction texts as [ | t texts IH ]; intros ss S; simpl in S.
  - now inv S.
  - destruct t; try discriminate.
    destruct (Toy.strings texts) as [ ss' | ]; simpl in S; [ | discriminate ].
    inv S. simpl. f_equal. now apply IH.
Qed.

Lemma embed_returns_rectangular_witness :
  exists out l,
    embed Toy.dense (PyList [PyStr "ab"; PyStr "c"; PyStr ""]) true 2 = Ok out
    /\ check_texts (PyList [PyStr "ab"; PyStr "c"; PyStr ""]) = Ok l
    /\ nrows out = length l
    /\ ncols out = 2%nat
    /\ Forall (fun r => length r = 2%nat) (rows out).
Proof.
  destruct (embed Toy.dense (PyList [PyStr "ab"; PyStr "c"; PyStr ""]) true 2)
    as [ out | e ] eqn:E; [ | vm_compute in E; discriminate ].
  destruct (embed_returns_rectangular Toy.dense _ _ _ E)
    as (l & Hl & Hn & Hc & Hf).
  exists out, l. auto.
Defined.

Lemma embed_rejects_by_type_witness :
  check_texts (PyList [PyInt 1; PyStr "a"]) = Raise TypeError
  /\ embed Toy.lenient (PyList [PyInt 1; PyStr "a"]) false 32
     = Raise TypeError.
Proof.
  apply (embed_rejects_by_type Toy.lenient (PyList [PyInt 1; PyStr "a"])).
  reflexivity.
Defined.

Lemma embed_batches_partition_witness :
  let texts := [PyStr "a"; PyStr "b"; PyStr "c"; PyStr "d"; PyStr "e"] in
  Py.range 0 (length texts) 2 = Ok [0; 2; 4]%nat
  /\ concat (map (fun i => Py.slice texts i (i + 2)) [0; 2; 4]%nat) = texts
  /\ Forall (fun i => (0 < length (Py.slice texts i (i + 2)) <= 2)%nat)
            [0; 2; 4]%nat.
Proof.
  intros texts. split; [ reflexivity | ].
  apply (@embed_batches_partition obj texts 2 [0; 2; 4]%nat).
  reflexivity.
Defined.

Lemma embed_dense_concatenates_batches_witness :
  let texts := PyList [PyStr "ab"; PyStr "c"; PyStr "b"] in
  exists out l starts batches,
    embed Toy.dense texts false 2 = Ok out
    /\ check_texts texts = Ok l
    /\ Py.range 0 (length l) 2 = Ok starts
    /\ mapM (fun i => embed_batch Toy.dense (Py.slice l i (i + 2)) false)
            starts = Ok batches
    /\ rows out = concat (map (fun b => rows b) batches).
Proof.
  intros texts.
  destruct (embed Toy.dense texts false 2) as [ out | e ] eqn:E;
    [ | vm_compute in E; discriminate ].
  destruct (@embed_dense_concatenates_batches Toy.dense texts false 2 out
              eq_refl toy_one_encoding_per_text E)
    as (l & starts & batches & H).
  exists out, l, starts, batches. tauto.
Defined.

Lemma normalize_zero_row_is_nan_witness :
  nth_error
    (rows (normalize_embeddings
             {| ncols := 2;
                rows := [[Toy.f 3; Toy.f 4]; [S754_zero false; S754_zero true]]
             |})) 1
  = Some [S754_nan; S754_nan].
Proof.
  apply (@normalize_zero_row_is_nan
           {| ncols := 2;
              rows := [[Toy.f 3; Toy.f 4]; [S754_zero false; S754_zero true]]
           |} 1 [S754_zero false; S754_zero true]).
  - reflexivity.
  - repeat constructor.
Defined.

Lemma vector_similarity_dense_rows_mismatch_witness :
  vector_similarity Toy.dense
    (Arr2 {| ncols := 2; rows := [[Toy.f 1; Toy.f 0]; [Toy.f 0; Toy.f 1]] |})
    (Arr2 {| ncols := 2;
             rows := [[Toy.f 1; Toy.f 1]; [Toy.f 0; Toy.f 1];
                      [Toy.f 1; Toy.f 0]] |})
  = Raise ValueError.
Proof.
  apply (@vector_similarity_dense_rows_mismatch Toy.dense);
    [ reflexivity | | | ]; cbv; intros H; discriminate H.
Defined.

Lemma vector_similarity_dense_same_shape_witness :
  let a := {| ncols := 2%nat;
              rows := [[Toy.f 1; Toy.f 0]; [Toy.f 0; Toy.f 1]] |} in
  let b := {| ncols := 2%nat;
              rows := [[Toy.f 1; Toy.f 1]; [Toy.f 0; Toy.f 1]] |} in
  exists s,
    vector_similarity Toy.dense (Arr2 a) (Arr2 b) = Ok s
    /\ shape s = (2, 2)%nat
    /\ Forall (fun r => length r = 2%nat) (rows s).
Proof.
  intros a b.
  apply (@vector_similarity_dense_same_shape Toy.dense a b); reflexivity.
Defined.

Lemma rank_returns_not_one_witness :
  exists out,
    rank Toy.dense (PyStr "a") (PyList [PyStr "b"; PyStr "c"]) = Ok out
    /\ length out <> 1%nat
    /\ (binary Toy.dense = false -> (2 <= length out)%nat).
Proof.
  destruct (rank Toy.dense (PyStr "a") (PyList [PyStr "b"; PyStr "c"]))
    as [ out | e ] eqn:E; [ | vm_compute in E; discriminate ].
  exists out. split; [ reflexivity | ].
  exact (rank_returns_not_one Toy.dense _ _ E).
Defined.

Lemma rank_permutes_docs_witness :
  exists out ds,
    rank Toy.dense (PyStr "a") (PyList [PyStr "b"; PyStr "c"; PyStr "b"])
    = Ok out
    /\ PyList [PyStr "b"; PyStr "c"; PyStr "b"] = PyList ds
    /\ Permutation ds (map fst out)
    /\ length out = length ds.
Proof.
  destruct (rank Toy.dense (PyStr "a")
              (PyList [PyStr "b"; PyStr "c"; PyStr "b"]))
    as [ out | e ] eqn:E; [ | vm_compute in E; discriminate ].
  destruct (rank_permutes_docs Toy.dense _ _ E) as (ds & H).
  exists out, ds. tauto.
Defined.


Lemma topk_needs_more_than_k_witness :
  topk Toy.dense (PyStr "a") (PyList [PyStr "a"; PyStr "b"; PyStr "c"]) 3
  = Raise AssertionError.
Proof.
  apply (@topk_needs_more_than_k Toy.dense (PyStr "a")
           [PyStr "a"; PyStr "b"; PyStr "c"] 3).
  apply Z.leb_le. reflexivity.
Defined.

Lemma topk_returns_k_best_witness :
  let candidates := PyList [PyStr "b"; PyStr "a"; PyStr "c"; PyStr "bc"] in
  exists ranked,
    rank Toy.dense (PyStr "a") candidates = Ok ranked
    /\ topk Toy.dense (PyStr "a") candidates 2
       = Ok (map fst (firstn 2 ranked))
    /\ length (map fst (firstn 2 ranked)) = 2%nat.
Proof.
  intros candidates.
  destruct (rank Toy.dense (PyStr "a") candidates) as [ ranked | e ] eqn:E;
    [ | vm_compute in E; discriminate ].
  exists ranked. split; [ reflexivity | ].
  assert (R : ranked
              = [(PyStr "a", S754_finite false 8388608 (-23));
                 (PyStr "c", S754_finite false 11863283 (-24));
                 (PyStr "bc", S754_finite false 15005998 (-25));
                 (PyStr "b", S754_zero false)])
    by (vm_compute in E; now inv E).
  destruct (@topk_returns_k_best Toy.dense (PyStr "a") candidates 2 ranked E)
    as (H1 & H2 & _).
  - rewrite R. simpl. lia.
  - rewrite R. repeat constructor.
  - auto.
Defined.

Lemma similarity_dense_returns_witness :
  exists x, similarity Toy.dense (PyStr "a") (PyStr "bc") = Ok x.
Proof.
  destruct (embed Toy.dense (PyStr "a") false 32) as [ e1 | ] eqn:E1;
    [ | vm_compute in E1; discriminate ].
  destruct (embed Toy.dense (PyStr "bc") false 32) as [ e2 | ] eqn:E2;
    [ | vm_compute in E2; discriminate ].
  exact (@similarity_dense_returns Toy.dense "a" "bc" e1 e2 eq_refl E1 E2).
Defined.

Lemma similarity_dense_symmetric_witness :
  exists x,
    similarity Toy.dense (PyStr "ab") (PyStr "c") = Ok x
    /\ similarity Toy.dense (PyStr "c") (PyStr "ab") = Ok x.
Proof.
  destruct (similarity Toy.dense (PyStr "ab") (PyStr "c")) as [ x | e ] eqn:E;
    [ | vm_compute in E; discriminate ].
  exists x. split; [ reflexivity | ].
  exact (@similarity_dense_symmetric Toy.dense (PyStr "ab") (PyStr "c") x
           eq_refl E).
Defined.

Lemma cluster_returns_only_if_witness :
  let docs := PyList [PyStr "a"; PyStr "b"; PyStr "ab"] in
  exists r d0 rest embeddings,
    cluster Toy.kmeans Toy.dense docs 2 tt = Ok r
    /\ docs = PyList (d0 :: rest)
    /\ is_str d0 = true
    /\ 2 <= Z.of_nat (length (d0 :: rest))
    /\ embed Toy.dense docs true 32 = Ok embeddings
    /\ nrows embeddings = length (d0 :: rest)
    /\ Toy.kmeans embeddings 2 tt = Ok r.
Proof.
  intros docs.
  destruct (cluster Toy.kmeans Toy.dense docs 2 tt) as [ r | e ] eqn:E;
    [ | vm_compute in E; discriminate ].
  destruct (@cluster_returns_only_if unit (list nat) Toy.kmeans Toy.dense
              docs 2 tt r E) as (_ & d0 & rest & emb & H).
  exists r, d0, rest, emb. tauto.
Defined.

Lemma deduplicate_drops_marked_witness :
  let docs := [PyStr "a"; PyStr "b"; PyStr "a"; PyStr "c"] in
  exists unique_docs marked,
    deduplicate process_batches_cy Toy.dense (PyList docs) nine_tenths None
    = Ok unique_docs
    /\ (forall d, In d unique_docs <->
                  exists i, nth_error docs i = Some d /\ ~ In i marked).
Proof.
  intros docs.
  destruct (deduplicate process_batches_cy Toy.dense (PyList docs)
              nine_tenths None) as [ u | e ] eqn:E;
    [ | vm_compute in E; discriminate ].
  destruct (@deduplicate_drops_marked process_batches_cy Toy.dense docs
              nine_tenths None u E) as (emb & marked & _ & _ & H & _).
  exists u, marked. auto.
Defined.

